(** * Daily interpolation and method selection of the river water-chemistry
    use case (hydrochem_trends_river_oslofjord_use_case/src/interpolate.py
    and fluxes.py).

    Values are exact rationals [Q]; a missing value (NaN) is [None].  A daily
    series is the list of its values, one per calendar day, so that a day is
    its position in the list. *)

From Stdlib Require Import String.
From Stdlib Require Import QArith Qfield Qminmax Qround List Lia ZArith Bool Permutation Sorted.
From Stdlib Require Import Reals Qreals Psatz.
Import ListNotations.
Open Scope nat_scope.

Definition series := list (option Q).

(** ** Small list utilities *)

(** [acc.loc[i] = x] on an existing position; out of range nothing happens. *)
Fixpoint list_set {A} (l : list A) (i : nat) (x : A) : list A :=
  match l, i with
  | [], _ => []
  | _ :: t, O => x :: t
  | y :: t, S j => y :: list_set t j x
  end.

Definition Qsum (l : list Q) : Q := fold_right Qplus 0%Q l.

(** [Series.dropna()]. *)
Fixpoint dropna (xs : series) : list Q :=
  match xs with
  | [] => []
  | Some v :: t => v :: dropna t
  | None :: t => dropna t
  end.

Definition Qltb (a b : Q) : bool := negb (Qle_bool b a).

(** ** pandas [Series.interpolate(method="linear", limit=...)]

    pandas computes [np.interp] at every NaN position from the valid
    positions, then puts NaN back at the leading NaNs (default
    [limit_direction="forward"]) and, when [limit] is given, at every NaN
    that is preceded by at least [limit] consecutive NaNs of its own run.
    [np.interp] returns the last valid value past the last valid position. *)

Fixpoint last_valid_before (xs : series) (i : nat) : option (nat * Q) :=
  match i with
  | O => None
  | S j =>
      match nth j xs None with
      | Some v => Some (j, v)
      | None => last_valid_before xs j
      end
  end.

Fixpoint first_valid_from (l : series) (k : nat) : option (nat * Q) :=
  match l with
  | [] => None
  | Some v :: _ => Some (k, v)
  | None :: t => first_valid_from t (S k)
  end.

Definition first_valid_after (xs : series) (i : nat) : option (nat * Q) :=
  first_valid_from (skipn (S i) xs) (S i).

(** Number of consecutive NaNs ending just before position [i]. *)
Fixpoint nan_run_upto (xs : series) (i : nat) : nat :=
  match i with
  | O => O
  | S j =>
      match nth j xs None with
      | Some _ => O
      | None => S (nan_run_upto xs j)
      end
  end.

(** Number of leading NaNs of a list. *)
Fixpoint nan_run_from (l : series) : nat :=
  match l with
  | None :: t => S (nan_run_from t)
  | _ => O
  end.

(** Length of the run of NaNs that contains position [i]. *)
Definition nan_run_len (xs : series) (i : nat) : nat :=
  nan_run_upto xs (S i) + nan_run_from (skipn (S i) xs).

Definition Qofnat (n : nat) : Q := inject_Z (Z.of_nat n).

(** [np.interp(i, valid_positions, valid_values)] at a position after the
    first valid one; [None] before it (the leading NaNs are preserved). *)
Definition np_interp_at (xs : series) (i : nat) : option Q :=
  match last_valid_before xs i with
  | None => None
  | Some (a, va) =>
      match first_valid_after xs i with
      | None => Some va
      | Some (b, vb) => Some (va + (vb - va) * (Qofnat (i - a) / Qofnat (b - a)))%Q
      end
  end.

Definition interp_at (limit : option nat) (xs : series) (i : nat) : option Q :=
  match nth i xs None with
  | Some v => Some v
  | None =>
      match limit with
      | Some n => if n <? nan_run_upto xs (S i) then None else np_interp_at xs i
      | None => np_interp_at xs i
      end
  end.

Definition interpolate_linear (limit : option nat) (xs : series) : series :=
  map (interp_at limit xs) (seq 0 (length xs)).

(** [interpolate_with_gap_limit(series, max_gap, method="linear")]:
    [series.interpolate(method="linear", limit=max_gap)]; pandas raises
    [ValueError] for a limit below 1, modelled as [None]. *)
Definition interpolate_with_gap_limit (xs : series) (max_gap : Z) : option series :=
  if (max_gap <=? 0)%Z then None
  else Some (interpolate_linear (Some (Z.to_nat max_gap)) xs).

(** ** [monthly_to_daily_for_year]

    Days of a year are positions 0 .. 364 (365 in a leap year). *)

Definition is_leap (y : Z) : bool :=
  ((y mod 4 =? 0) && negb (y mod 100 =? 0) || (y mod 400 =? 0))%Z.

Definition month_lengths (y : Z) : list nat :=
  [31; if is_leap y then 29 else 28; 31; 30; 31; 30; 31; 31; 30; 31; 30; 31].

Definition days_in_year (y : Z) : nat := if is_leap y then 366 else 365.

(** Position of the first day of month [m] (1 .. 12; 13 is the first day of
    the next year). *)
Definition month_start (y : Z) (m : nat) : nat :=
  list_sum (firstn (m - 1) (month_lengths y)).

(** [pd.to_datetime("m-year") + MonthBegin(1) - Timedelta("17D")]: 17 days
    before the first day of the following month. *)
Definition anchor_pos (y : Z) (m : nat) : nat := month_start y (S m) - 17.

(** [tmp.reindex(daily_idx)]: the monthly medians (month [m] at list index
    [m - 1], [None] for NaN or an absent month) placed at their anchors. *)
Definition place_anchors (y : Z) (monthly : list (option Q)) : series :=
  fold_left (fun acc pv => list_set acc (fst pv) (snd pv))
    (combine (map (anchor_pos y) (seq 1 12)) monthly)
    (repeat None (days_in_year y)).

Definition clamp0 (x : Q) : Q := if Qltb x 0 then 0%Q else x.

(** The anchored year with January 1 and December 31 seeded, before
    [tmp.interpolate(method="time")] (linear in the day on a daily index). *)
Definition seed_year_ends (monthly : list (option Q)) (y : Z) : series :=
  let tmp := place_anchors y monthly in
  let jan15 := nth 14 tmp None in
  let dec15 := nth (month_start y 12 + 14) tmp None in
  let end_val :=
    match jan15, dec15 with
    | Some j, Some d => Some ((j - d) / 2 + d)%Q
    | _, _ => None
    end in
  list_set (list_set tmp 0 end_val) (days_in_year y - 1) end_val.

Definition monthly_to_daily_for_year (monthly : list (option Q)) (y : Z) : series :=
  let tmp := interpolate_linear None (seed_year_ends monthly y) in
  map (option_map clamp0) tmp.


(** * Method selection of [interpolate] (one station, one variable)

    A chemistry variable's observed column and its candidate method columns
    are full-length daily series on the station's calendar; a candidate
    column is looked up by its suffix ([f"{var}_{suffix}"]). *)

(** [df.loc[s:e]] on positions [s .. e]. *)
Definition slice (s e : nat) (xs : series) : series := firstn (S e - s) (skipn s xs).

(** [first_valid_index()] and [last_valid_index()]. *)
Fixpoint first_valid_index_from (xs : series) (k : nat) : option nat :=
  match xs with
  | [] => None
  | Some _ :: _ => Some k
  | None :: t => first_valid_index_from t (S k)
  end.

Definition obs_span (obs : series) : option (nat * nat) :=
  match first_valid_index_from obs 0, last_valid_before obs (length obs) with
  | Some s, Some (e, _) => Some (s, e)
  | _, _ => None
  end.

Definition lookup_col (cols : list (string * series)) (sfx : string) : option series :=
  match find (fun c => String.eqb (fst c) sfx) cols with
  | Some c => Some (snd c)
  | None => None
  end.

(** [valid = y_obs.notna() & y_pred.notna()]: the pairs of both values. *)
Fixpoint valid_pairs (o p : series) : list (Q * Q) :=
  match o, p with
  | Some a :: o', Some b :: p' => (a, b) :: valid_pairs o' p'
  | _ :: o', _ :: p' => valid_pairs o' p'
  | _, _ => []
  end.

Definition mean (l : list Q) : Q := (Qsum l / Qofnat (length l))%Q.

(** [sklearn.metrics.r2_score(y_true, y_pred)], with its [force_finite]
    answers 1 and 0 for a constant [y_true]. *)
Definition r2_score (pairs : list (Q * Q)) : Q :=
  let ys := map fst pairs in
  let m := mean ys in
  let ss_res := Qsum (map (fun ab => (fst ab - snd ab) ^ 2)%Q pairs) in
  let ss_tot := Qsum (map (fun a => (a - m) ^ 2)%Q ys) in
  if Qeq_bool ss_tot 0 then (if Qeq_bool ss_res 0 then 1%Q else 0%Q)
  else (1 - ss_res / ss_tot)%Q.

Record scored := { sc_suffix : string; sc_r2 : Q; sc_pred : series }.

(** Scoring of one candidate over the observed span: skipped below 10 valid
    overlapping pairs. *)
Definition score_candidate (y_obs : series) (sfx : string) (y_pred : series) : option scored :=
  let vp := valid_pairs y_obs y_pred in
  if length vp <? 10 then None
  else Some {| sc_suffix := sfx; sc_r2 := r2_score vp; sc_pred := y_pred |}.

Record sel_cfg := {
  candidate_suffixes : list string;
  fallback_method : string;
  r2_threshold : Q;
  z_score_limit : Q;
  tolerance : Q;
  extreme_ratio_limit : Q }.

Definition default_sel_cfg : sel_cfg := {|
  candidate_suffixes := ["annual_gam"; "monthly_regres"; "monthly_interp"]%string;
  fallback_method := "linear_interp"%string;
  r2_threshold := 4 # 5;
  z_score_limit := 3;
  tolerance := 50;
  extreme_ratio_limit := 2 |}.

Definition score_col (cols : list (string * series)) (y_obs : series) (s e : nat)
    (sfx : string) : option scored :=
  match lookup_col cols sfx with
  | Some col => score_candidate y_obs sfx (slice s e col)
  | None => None
  end.

Definition opt_to_list {A} (o : option A) : list A :=
  match o with Some x => [x] | None => [] end.

(** "Evaluate candidates": every scored candidate, in suffix order. *)
Definition scored_candidates (cfg : sel_cfg) (cols : list (string * series))
    (y_obs : series) (s e : nat) : list scored :=
  flat_map (fun sfx => opt_to_list (score_col cols y_obs s e sfx)) (candidate_suffixes cfg).

Definition good_methods (cfg : sel_cfg) (scs : list scored) : list scored :=
  filter (fun sc => Qle_bool (r2_threshold cfg) (sc_r2 sc)) scs.

(** [sort(key=r2, reverse=True)], a stable sort: among equal scores the
    earlier element stays first. *)
Fixpoint insert_desc (x : scored) (l : list scored) : list scored :=
  match l with
  | [] => [x]
  | y :: t => if Qle_bool (sc_r2 y) (sc_r2 x) then x :: y :: t else y :: insert_desc x t
  end.

Definition sort_desc (l : list scored) : list scored := fold_right insert_desc [] l.

(** [p > obs.mean() + z * obs.std() + tol], decided exactly: with
    [m = mean], [v] the sample variance ([ddof=1]) and [a = p - m - tol],
    the test is [z * sqrt v < a].  With fewer than two observations the
    standard deviation is NaN and the comparison is False. *)
Definition sample_var (obs : list Q) : Q :=
  (Qsum (map (fun x => (x - mean obs) ^ 2)%Q obs) / Qofnat (length obs - 1))%Q.

Definition exceeds_bound (z tol : Q) (obs : list Q) (p : Q) : bool :=
  if length obs <? 2 then false
  else
    let m := mean obs in
    let v := sample_var obs in
    let a := (p - m - tol)%Q in
    if Qle_bool 0 z then Qltb 0 a && Qltb (z * z * v) (a * a)
    else Qltb 0 a || Qltb (a * a) (z * z * v).

(** The outlier check: rejected when [(pred > final_threshold).any()]. *)
Definition passes_gate (cfg : sel_cfg) (obs : list Q) (pred : series) : bool :=
  negb (existsb (exceeds_bound (z_score_limit cfg) (tolerance cfg) obs) (dropna pred)).

(** The first method, in priority order, that passes the outlier check. *)
Definition ranked_primary (cfg : sel_cfg) (cols : list (string * series))
    (obs : series) (s e : nat) : option scored :=
  let y_obs := slice s e obs in
  find (fun m => passes_gate cfg (dropna y_obs) (sc_pred m))
    (sort_desc (good_methods cfg (scored_candidates cfg cols y_obs s e))).

(** Primary method: the ranked one, else the configured fallback column. *)
Definition select_primary (cfg : sel_cfg) (cols : list (string * series))
    (obs : series) (s e : nat) : option (string * series) :=
  match ranked_primary cfg cols obs s e with
  | Some m => Some (sc_suffix m, sc_pred m)
  | None =>
      match lookup_col cols (fallback_method cfg) with
      | Some col => Some (fallback_method cfg, slice s e col)
      | None => None
      end
  end.

(** [gap_lengths.max()]: the longest run of missing values. *)
Fixpoint runs_max (l : list bool) (cur best : nat) : nat :=
  match l with
  | [] => Nat.max cur best
  | true :: t => runs_max t (S cur) best
  | false :: t => runs_max t 0 (Nat.max cur best)
  end.

Definition is_none {A} (o : option A) : bool := match o with None => true | Some _ => false end.

Definition longest_gap (sel : series) : nat := runs_max (map is_none sel) 0 0.

Definition list_max (l : list Q) : option Q :=
  match l with [] => None | x :: t => Some (fold_left Qmax t x) end.

Definition list_min (l : list Q) : option Q :=
  match l with [] => None | x :: t => Some (fold_left Qmin t x) end.

(** [too_extreme]: [pred_max > obs_max * ratio or pred_min < obs_min / ratio]
    (NaN extrema compare False). *)
Definition too_extreme (ratio : Q) (y_obs y_pred : series) : bool :=
  match list_min (dropna y_obs), list_max (dropna y_obs),
        list_min (dropna y_pred), list_max (dropna y_pred) with
  | Some omin, Some omax, Some pmin, Some pmax =>
      Qltb (omax * ratio) pmax || Qltb pmin (omin / ratio)
  | _, _, _, _ => false
  end.

Definition donor_suffixes : list string := ["annual_gam"; "monthly_regres"]%string.

Definition donor_ok (cfg : sel_cfg) (y_obs : series) (long_gap : bool) (sc : scored) : bool :=
  negb (long_gap && too_extreme (extreme_ratio_limit cfg) y_obs (sc_pred sc)).

(** [fb_cands]: the scored donors that survive the extreme check. *)
Definition donor_candidates (cfg : sel_cfg) (cols : list (string * series))
    (y_obs : series) (s e : nat) (long_gap : bool) : list scored :=
  flat_map (fun sfx => filter (donor_ok cfg y_obs long_gap)
                         (opt_to_list (score_col cols y_obs s e sfx)))
    donor_suffixes.

(** [filled_series.loc[avail] = donor.loc[avail]] with
    [avail = missing_mask & donor.notna()]. *)
Fixpoint fill_missing (sel donor : series) : series :=
  match sel, donor with
  | [], _ => []
  | _, [] => sel
  | None :: s', d :: d' => d :: fill_missing s' d'
  | x :: s', _ :: d' => x :: fill_missing s' d'
  end.

Fixpoint any_avail (sel donor : series) : bool :=
  match sel, donor with
  | None :: _, Some _ :: _ => true
  | _ :: s', _ :: d' => any_avail s' d'
  | _, _ => false
  end.

(** The gap-fill pass on the selected series (over the observed span);
    returns the filled series and the donor used. *)
Definition gap_fill_pass (cfg : sel_cfg) (cols : list (string * series))
    (y_obs : series) (s e : nat) (sel : series) : series * option string :=
  if existsb is_none sel then
    let long_gap := 1460 <=? longest_gap sel in
    match sort_desc (donor_candidates cfg cols y_obs s e long_gap) with
    | [] => (sel, None)
    | best :: _ =>
        if any_avail sel (sc_pred best)
        then (fill_missing sel (sc_pred best), Some (sc_suffix best))
        else (sel, None)
    end
  else (sel, None).

Record decision := {
  primary_method : string;
  fallback_used : option string;
  final : series }.

(** Per-variable selection; the result is written back on the whole calendar
    ([filled_series.reindex(dates)]). [None]: no observation or no usable
    method. *)
Definition select_variable (cfg : sel_cfg) (obs : series) (cols : list (string * series))
    : option decision :=
  match obs_span obs with
  | None => None
  | Some (s, e) =>
      let y_obs := slice s e obs in
      match select_primary cfg cols obs s e with
      | None => None
      | Some (name, sel) =>
          let (filled, fb) := gap_fill_pass cfg cols y_obs s e sel in
          Some {| primary_method := name;
                  fallback_used := fb;
                  final := map (fun i => if (s <=? i) && (i <=? e) then nth (i - s) filled None
                                         else None) (seq 0 (length obs)) |}
      end
  end.

(** * Daily calendar of one station ([merge_daily_wc_q]) *)

(** The outcome of a function that may raise. *)
Inductive outcome (A : Type) : Type :=
| Ok (a : A)
| Err (msg : string).
Arguments Ok {A} a.
Arguments Err {A} msg.

(** A row of a station table: the station name, the date as a day number
    and one numeric column (the discharge in [q_df], a chemistry variable
    in [wc_df]). *)
Record obs_row := { station : string; date : Z; value : option Q }.

(** A row of the aligned daily frame. *)
Record daily_row := { d_date : Z; d_discharge : option Q; d_chem : option Q }.

Fixpoint zrange (lo : Z) (n : nat) : list Z :=
  match n with
  | O => []
  | S n' => lo :: zrange (lo + 1)%Z n'
  end.

(** [pd.date_range(first, last, freq="D")], and likewise the consecutive
    periods of a [resample]. *)
Definition date_range (first last : Z) : list Z := zrange first (Z.to_nat (last - first + 1)).

Definition zmin_list (l : list Z) : Z :=
  match l with [] => 0%Z | x :: t => fold_left Z.min t x end.
Definition zmax_list (l : list Z) : Z :=
  match l with [] => 0%Z | x :: t => fold_left Z.max t x end.

(** [drop_duplicates(subset=date)]: the first row of each date is kept. *)
Fixpoint drop_duplicates_from (seen : list Z) (rows : list obs_row) : list obs_row :=
  match rows with
  | [] => []
  | r :: t =>
      if existsb (Z.eqb (date r)) seen then drop_duplicates_from seen t
      else r :: drop_duplicates_from (date r :: seen) t
  end.
Definition drop_duplicates (rows : list obs_row) : list obs_row := drop_duplicates_from [] rows.

(** The sorted distinct keys of a [groupby]. *)
Fixpoint insert_uniq (x : Z) (l : list Z) : list Z :=
  match l with
  | [] => [x]
  | y :: t => if (x <? y)%Z then x :: l else if (x =? y)%Z then l else y :: insert_uniq x t
  end.
Definition sorted_keys (l : list Z) : list Z := fold_right insert_uniq [] l.

(** [mean(numeric_only=True)] of a group, skipping missing values. *)
Definition mean_skipna (vals : series) : option Q :=
  match dropna vals with [] => None | l => Some (mean l) end.

Definition rows_on (d : Z) (rows : list obs_row) : list obs_row :=
  filter (fun r => Z.eqb (date r) d) rows.

Definition first_value (rows : list obs_row) : option Q :=
  match rows with r :: _ => value r | [] => None end.

(** Equality of optional numbers, [Qeq] on present values. *)
Definition opt_Qeq (a b : option Q) : Prop :=
  match a, b with
  | Some x, Some y => (x == y)%Q
  | None, None => True
  | _, _ => False
  end.

Definition merge_daily_wc_q (wc_df q_df : list obs_row) (station_name : string)
    : outcome (list daily_row) :=
  let wc := filter (fun r => String.eqb (station r) station_name) wc_df in
  let q := filter (fun r => String.eqb (station r) station_name) q_df in
  match q with
  | [] => Err "No discharge rows for station"
  | _ :: _ =>
      let q' := drop_duplicates q in
      let full_dates := date_range (zmin_list (map date q')) (zmax_list (map date q')) in
      (* left merge with the discharge, one row per date *)
      let merged1 := map (fun d => (d, first_value (rows_on d q'))) full_dates in
      (* left merge with the chemistry, one row per matching sample *)
      let merged2 := flat_map (fun dq => match rows_on (fst dq) wc with
                                         | [] => [(fst dq, snd dq, None)]
                                         | ms => map (fun r => (fst dq, snd dq, value r)) ms
                                         end) merged1 in
      (* groupby(date).mean() *)
      Ok (map (fun k =>
                 let grp := filter (fun x => Z.eqb (fst (fst x)) k) merged2 in
                 {| d_date := k;
                    d_discharge := mean_skipna (map (fun x => snd (fst x)) grp);
                    d_chem := mean_skipna (map snd grp) |})
              (sorted_keys (map (fun x => fst (fst x)) merged2)))
  end.

(** * Monthly and annual flux totals ([resample(...).sum(min_count=...)]) *)

(** A daily flux value with the year and month of its date. *)
Record flux_row := { f_year : Z; f_month : Z; f_value : option Q }.

(** [sum(min_count=n)]: missing when fewer than [n] values are valid. *)
Definition sum_min_count (min_count : nat) (vals : series) : option Q :=
  let v := dropna vals in
  if length v <? min_count then None else Some (Qsum v).

Definition resample_sum (key : flux_row -> Z) (min_count : nat) (rows : list flux_row)
    : list (Z * option Q) :=
  match rows with
  | [] => []
  | _ :: _ =>
      let ks := map key rows in
      map (fun k => (k, sum_min_count min_count
                          (map f_value (filter (fun r => Z.eqb (key r) k) rows))))
          (date_range (zmin_list ks) (zmax_list ks))
  end.

Definition month_key (r : flux_row) : Z := (f_year r * 12 + (f_month r - 1))%Z.

(** [daily_df.resample("M").sum(min_count=25)] *)
Definition monthly_flux (rows : list flux_row) : list (Z * option Q) :=
  resample_sum month_key 25 rows.

(** [daily_df.resample("Y").sum(min_count=350)] *)
Definition annual_flux (rows : list flux_row) : list (Z * option Q) :=
  resample_sum f_year 350 rows.

(** * The flux pipeline ([flux]) *)

(** The files the pipeline writes. *)
Inductive artefact :=
| Plot (name : string)
| NetCDF (label : string).

(** Writing files and raising: the files written so far, and the outcome. *)
Definition FluxM (A : Type) : Type := list artefact -> list artefact * outcome A.

Definition fret {A} (a : A) : FluxM A := fun w => (w, Ok a).
Definition fbind {A B} (m : FluxM A) (k : A -> FluxM B) : FluxM B :=
  fun w => match m w with
           | (w', Ok a) => k a w'
           | (w', Err e) => (w', Err e)
           end.
Definition lift {A} (o : outcome A) : FluxM A := fun w => (w, o).
Definition emit (a : artefact) : FluxM unit := fun w => (w ++ [a], Ok tt).
Definition assert_ (b : bool) : FluxM unit :=
  fun w => if b then (w, Ok tt) else (w, Err "AssertionError").

Notation "'let*' x := m 'in' k" := (fbind m (fun x => k))
  (at level 200, x name, m at level 100, k at level 200).

(** The year and month of a day number (days since 1970-01-01) in the
    proleptic Gregorian calendar. *)
Definition civil_ym (day : Z) : Z * Z :=
  let z := (day + 719468)%Z in
  let era := (z / 146097)%Z in
  let doe := (z - era * 146097)%Z in
  let yoe := ((doe - doe / 1460 + doe / 36524 - doe / 146096) / 365)%Z in
  let doy := (doe - (365 * yoe + yoe / 4 - yoe / 100))%Z in
  let mp := ((5 * doy + 2) / 153)%Z in
  let m := if (mp <? 10)%Z then (mp + 3)%Z else (mp - 9)%Z in
  ((yoe + era * 400 + if (m <=? 2)%Z then 1 else 0)%Z, m).

(** The daily values of one column on a date index (a date is its day
    number); [resample] leaves out the rows whose date is [NaT]. *)
Definition flux_rows (dates vals : series) : list flux_row :=
  flat_map (fun dv => match fst dv with
                      | Some d => let ym := civil_ym (Qfloor d) in
                                  [{| f_year := fst ym; f_month := snd ym; f_value := snd dv |}]
                      | None => []
                      end) (combine dates vals).

(** [plot_daily_fluxes(df, station_name, save_path=save_path)] with the
    default [cols=3], on a frame whose columns are all numeric and whose
    index is named [index_name]:
    - [df.sort_values("date")] takes [date] as a column or as the index name;
    - [flux_vars] are the columns other than [discharge] that are not all
      missing ([columns.difference] also sorts them; every panel makes the
      same calls, so the order does not change the outcome);
    - [plt.subplots(rows, cols)] raises when [rows = ceil(len(flux_vars)/3)]
      is 0;
    - the first panel reads [df["date"]], a column lookup;
    - the figure is saved to [save_path]. *)
Definition plot_daily_fluxes (index_name : string) (df : list (string * series))
    (save_path : string) : FluxM unit :=
  let date_is_col := existsb (fun kv => String.eqb (fst kv) "date") df in
  let* _ := lift (if String.eqb index_name "date"
                  then if date_is_col
                       then Err "ValueError: 'date' is both an index level and a column label"
                       else Ok tt
                  else if date_is_col then Ok tt else Err "KeyError: 'date'") in
  let flux_vars := filter (fun kv => negb (String.eqb (fst kv) "discharge") &&
                                     negb (forallb is_none (snd kv))) df in
  let rows := (length flux_vars + 3 - 1) / 3 in
  let* _ := lift (if Nat.eqb rows 0
                  then Err "ValueError: Number of rows must be a positive integer"
                  else Ok tt) in
  let* _ := match flux_vars with
            | [] => fret tt
            | _ :: _ => lift (match lookup_col df "date" with
                              | Some _ => Ok tt
                              | None => Err "KeyError: 'date'"
                              end)
            end in
  emit (Plot save_path).

(** [flux(cfg)] from the daily flux table on: the loading, merging and flux
    computation that precede it give [df_with_fluxes] (or raise). The date
    column holds day numbers. [monthly_df] and [annual_df] are kept per
    column, with the period of each total. *)
Definition flux (df_with_fluxes : outcome (list (string * series))) : FluxM unit :=
  let* df := lift df_with_fluxes in
  let* dates := lift (match lookup_col df "date" with
                      | Some d => Ok d
                      | None => Err "KeyError: 'date'"
                      end) in
  let daily_df := filter (fun kv => negb (String.eqb (fst kv) "date")) df in
  let monthly_df := map (fun kv => (fst kv, monthly_flux (flux_rows dates (snd kv)))) daily_df in
  let annual_df := map (fun kv => (fst kv, annual_flux (flux_rows dates (snd kv)))) daily_df in
  let* _ := plot_daily_fluxes "date" daily_df "daily_fluxes.png" in
  let* _ := assert_ false in
  let* _ := emit (Plot "monthly_fluxes.png") in
  let* _ := emit (Plot "annual_fluxes.png") in
  let* _ := emit (NetCDF "daily") in
  let* _ := emit (NetCDF "monthly") in
  emit (NetCDF "annual").

(** The columns [plot_daily_fluxes] draws from the daily frame. *)
Definition flux_plot_vars (df : list (string * series)) : list (string * series) :=
  filter (fun kv => negb (String.eqb (fst kv) "date") && negb (String.eqb (fst kv) "discharge") &&
                    negb (forallb is_none (snd kv))) df.

(** * Daily calendar of the flux pipeline ([merge_daily_river_data])

    Unlike [merge_daily_wc_q], the rows are not filtered by station: the
    [station_name] argument is not used. *)
Definition merge_daily_river_data (wc_df q_df : list obs_row) (station_name : string)
    : outcome (list daily_row) :=
  let q' := drop_duplicates q_df in
  match q' with
  | [] => Err "ValueError: date_range of NaT"
  | _ :: _ =>
      let full_dates := date_range (zmin_list (map date q')) (zmax_list (map date q')) in
      let merged1 := map (fun d => (d, first_value (rows_on d q'))) full_dates in
      let merged2 := flat_map (fun dq => match rows_on (fst dq) wc_df with
                                         | [] => [(fst dq, snd dq, None)]
                                         | ms => map (fun r => (fst dq, snd dq, value r)) ms
                                         end) merged1 in
      Ok (map (fun k =>
                 let grp := filter (fun x => Z.eqb (fst (fst x)) k) merged2 in
                 {| d_date := k;
                    d_discharge := mean_skipna (map (fun x => snd (fst x)) grp);
                    d_chem := mean_skipna (map snd grp) |})
              (sorted_keys (map (fun x => fst (fst x)) merged2)))
  end.

(** * Daily fluxes ([compute_fluxes])

    A frame is a list of named numeric columns on a common index. *)

(** [s.endswith(suffix)] *)
Definition ends_with (suffix s : string) : bool :=
  (String.length suffix <=? String.length s) &&
  String.eqb (substring (String.length s - String.length suffix) (String.length suffix) s) suffix.

(** [s.endswith((suffix1, suffix2, ...))] *)
Definition ends_with_any (suffixes : list string) (s : string) : bool :=
  existsb (fun suf => ends_with suf s) suffixes.

(** The conversion of a concentration to kg/m3 for a unit, [None] for a
    unit the code skips. *)
Definition conc_conversion (unit : string) : option (Q -> Q) :=
  if ends_with_any ["mg/l"; "mg/l C"; "mg Pt/l"]%string unit then Some (fun c => c * (1 # 1000))%Q
  else if ends_with_any ["µg/l"; "μg/l"; "µg/l P"]%string unit then Some (fun c => c * (1 # 1000000))%Q
  else if ends_with "Abs/cm" unit then Some (fun c => c)
  else None.

(** [param_unit_map[var]] (a dict: the first binding of a key). *)
Definition lookup_unit (param_unit_map : list (string * string)) (var : string) : option string :=
  match find (fun kv => String.eqb (fst kv) var) param_unit_map with
  | Some kv => Some (snd kv)
  | None => None
  end.

(** Element-wise arithmetic of two series on the same index. *)
Fixpoint map2 {A B C} (f : A -> B -> C) (l1 : list A) (l2 : list B) : list C :=
  match l1, l2 with
  | a :: t1, b :: t2 => f a b :: map2 f t1 t2
  | _, _ => []
  end.

(** [conc_kg_m3 * q_m3_per_day / 1000], NaN where either is NaN. *)
Definition flux_of (conv : Q -> Q) (conc q_m3_per_day : series) : series :=
  map2 (fun c qd => match c, qd with
                    | Some c, Some qd => Some (conv c * qd / 1000)%Q
                    | _, _ => None
                    end) conc q_m3_per_day.

(** One iteration of [for var in df.columns]: the flux column it adds. *)
Definition flux_entry (param_unit_map : list (string * string)) (discharge_col : string)
    (keep_cols : list string) (q_m3_per_day : series) (vc : string * series)
    : list (string * series) :=
  let var := fst vc in
  if existsb (String.eqb var) keep_cols || String.eqb var discharge_col then []
  else match lookup_unit param_unit_map var with
       | None => []
       | Some unit =>
           match conc_conversion unit with
           | None => []
           | Some conv => [(var, flux_of conv (snd vc) q_m3_per_day)]
           end
       end.

(** [for col in keep_cols: flux_df[col] = df[col]], raising [KeyError] for
    an absent column. *)
Fixpoint keep_columns (df : list (string * series)) (keep_cols : list string)
    : outcome (list (string * series)) :=
  match keep_cols with
  | [] => Ok []
  | c :: t =>
      match lookup_col df c with
      | None => Err "KeyError"
      | Some col =>
          match keep_columns df t with
          | Ok l => Ok ((c, col) :: l)
          | Err e => Err e
          end
      end
  end.

Definition compute_fluxes (df : list (string * series)) (param_unit_map : list (string * string))
    (discharge_col : string) (keep_cols : list string) : outcome (list (string * series)) :=
  match lookup_col df discharge_col with
  | None => Err "KeyError"
  | Some q =>
      let q_m3_per_day := map (option_map (fun x => x * 86400)%Q) q in
      let flux_cols := flat_map (flux_entry param_unit_map discharge_col keep_cols q_m3_per_day) df in
      match keep_columns df keep_cols with
      | Ok kept => Ok (flux_cols ++ kept)
      | Err e => Err e
      end
  end.

(** * Linear interpolation of a station frame ([interpolate_station_df])

    A station frame: the date of each row, its text columns (the meta
    columns such as [river_name]) and its numeric columns. The linear
    method is modelled. *)
Record frame := {
  fr_dates : list Z;
  fr_text : list (string * list (option string));
  fr_num : list (string * series) }.

(** The position of the first row of a date. *)
Fixpoint index_of (d : Z) (ds : list Z) : option nat :=
  match ds with
  | [] => None
  | x :: t => if Z.eqb x d then Some 0 else option_map S (index_of d t)
  end.

(** [drop_duplicates(subset=date).set_index(date).resample("D")]: the days
    from the first to the last date (none for an empty frame). *)
Definition daily_calendar (ds : list Z) : list Z :=
  match ds with
  | [] => []
  | _ :: _ => date_range (zmin_list ds) (zmax_list ds)
  end.

(** [.asfreq()] of a column: on each calendar day the value of the first
    row of that date, missing on a day without a row. *)
Definition asfreq {A} (ds : list Z) (col : list (option A)) (cal : list Z) : list (option A) :=
  map (fun d => match index_of d ds with Some i => nth i col None | None => None end) cal.

Definition asfreq_cols {A} (ds cal : list Z) (cols : list (string * list (option A)))
    : list (string * list (option A)) :=
  map (fun nc => (fst nc, asfreq ds (snd nc) cal)) cols.

Fixpoint ffill_from {A} (last : option A) (l : list (option A)) : list (option A) :=
  match l with
  | [] => []
  | Some v :: t => Some v :: ffill_from (Some v) t
  | None :: t => last :: ffill_from last t
  end.

(** [Series.ffill()] and [Series.bfill()] *)
Definition ffill {A} (l : list (option A)) : list (option A) := ffill_from None l.
Definition bfill {A} (l : list (option A)) : list (option A) := rev (ffill (rev l)).

(** [name in out.columns] and [out[name]] *)
Definition lookup_named {A} (cols : list (string * A)) (name : string) : option A :=
  match find (fun c => String.eqb (fst c) name) cols with
  | Some c => Some (snd c)
  | None => None
  end.

(** [out[name] = col]: replaces a column in place, or adds it at the end. *)
Fixpoint set_col {A} (name : string) (col : A) (cols : list (string * A)) : list (string * A) :=
  match cols with
  | [] => [(name, col)]
  | (n, c) :: t => if String.eqb n name then (name, col) :: t else (n, c) :: set_col name col t
  end.

(** [for c in meta_cols: if c in out.columns: out[c] = out[c].ffill().bfill()] *)
Definition fill_meta {A} (meta_cols : list string) (cols : list (string * list (option A)))
    : list (string * list (option A)) :=
  fold_left (fun t c => match lookup_named t c with
                        | Some col => set_col c (bfill (ffill col)) t
                        | None => t
                        end) meta_cols cols.

(** [for var in variables: if var in out.columns:
       out[f"{var}_linear_interp"] = interpolate_with_gap_limit(out[var], max_gap)] *)
Definition interp_step (max_gap : Z) (acc : outcome (list (string * series))) (var : string)
    : outcome (list (string * series)) :=
  match acc with
  | Err e => Err e
  | Ok n =>
      match lookup_named n var with
      | None => Ok n
      | Some col =>
          match interpolate_with_gap_limit col max_gap with
          | None => Err "ValueError: limit must be greater than 0"
          | Some ys => Ok (set_col (var ++ "_linear_interp") ys n)
          end
      end
  end.

(** The variables interpolated are numeric columns; [max_gap] is the
    [limit] of [interpolate_with_gap_limit]. *)
Definition interpolate_station_df (df : frame) (variables : list string)
    (meta_cols : list string) (max_gap : Z) : outcome frame :=
  match meta_cols with
  | [] => Err "ValueError: meta_cols required for ffill/bfill"
  | _ :: _ =>
      let cal := daily_calendar (fr_dates df) in
      let text := asfreq_cols (fr_dates df) cal (fr_text df) in
      let num := asfreq_cols (fr_dates df) cal (fr_num df) in
      let text' := fill_meta meta_cols text in
      let num1 : list (string * series) := fill_meta meta_cols num in
      let num' := fold_left (interp_step max_gap) variables (Ok num1) in
      match num' with
      | Err e => Err e
      | Ok n => Ok {| fr_dates := cal; fr_text := text'; fr_num := n |}
      end
  end.

(** * The GAM column ([compute_gam])

    A row of the merged daily frame: its date (year, month, day), the
    discharge and the chemistry variable. *)
Record gam_row := {
  g_year : Z; g_month : nat; g_day : nat;
  g_q : option Q; g_var : option Q }.

(** [dt.dayofyear] *)
Definition doy (r : gam_row) : nat := month_start (g_year r) (g_month r) + g_day r.

(** The order of dates as a number (a day of a month is at most 31). *)
Definition date_ord (r : gam_row) : Z :=
  ((g_year r * 12 + Z.of_nat (g_month r)) * 32 + Z.of_nat (g_day r))%Z.

Section GAM.

(** [_HAVE_PYGAM], and [model.gridsearch(X, y)]: the fitted model's
    [predict], or [None] when the fit raises. *)
Variable have_pygam : bool.
Variable gridsearch : list (Q * nat) -> list Q -> option (Q * nat -> Q).

(** [train = out.dropna(subset=[var, discharge, "doy"])], each with its
    features [(discharge, doy)] and target. *)
Definition gam_train (rows : list gam_row) : list (gam_row * (Q * nat) * Q) :=
  flat_map (fun r => match g_q r, g_var r with
                     | Some q, Some v => [(r, (q, doy r), v)]
                     | _, _ => []
                     end) rows.

(** The rows with their [doy] and [f"{var}_annual_gam"] columns. *)
Definition compute_gam (rows : list gam_row) : option (list (gam_row * nat * option Q)) :=
  if negb have_pygam then None else
  let train := gam_train rows in
  match train with
  | [] => None
  | _ :: _ =>
      match gridsearch (map (fun t => snd (fst t)) train) (map snd train) with
      | None => None
      | Some predict =>
          let first := zmin_list (map (fun t => date_ord (fst (fst t))) train) in
          let last := zmax_list (map (fun t => date_ord (fst (fst t))) train) in
          Some (map (fun r =>
                  (r, doy r,
                   match g_q r with
                   | Some q =>
                       if (first <=? date_ord r)%Z && (date_ord r <=? last)%Z
                       then Some (clamp0 (predict (q, doy r)))
                       else None
                   | None => None
                   end)) rows)
      end
  end.

End GAM.

(** * Meta values and the station id ([read_meta_value], [interpolate])

    Python values read from the configuration or a data column: [PNone]
    stands for [None] (and NaN in a column). A meta spec is a dict, a
    [null] spec being the empty one. *)
Inductive pyval :=
| PNone
| PStr (s : string)
| PNum (q : Q).

Definition is_null (v : pyval) : bool := match v with PNone => true | _ => false end.

(** [df[col].dropna()] *)
Definition dropnull (vals : list pyval) : list pyval := filter (fun v => negb (is_null v)) vals.

Definition read_meta_value (df : list (string * list pyval))
    (m : list (string * list (string * pyval))) (key : string) : outcome pyval :=
  match lookup_named m key with
  | None | Some [] => Ok PNone
  | Some spec =>
      match lookup_named spec "from_col" with
      | Some (PStr col) =>
          match lookup_named df col with
          | None => Err "KeyError: from_col not found"
          | Some vals => Ok (match dropnull vals with v :: _ => v | [] => PNone end)
          end
      | Some _ => Err "KeyError: from_col not found"
      | None =>
          match lookup_named spec "value" with
          | Some v => Ok v
          | None => Ok PNone
          end
      end
  end.

(** [station_name_val] in [interpolate]: the meta value, else the first
    station of the chemistry file, else ["UNKNOWN"]. *)
Definition station_name_val (wc_df_raw : list (string * list pyval))
    (meta_map : list (string * list (string * pyval))) (wc_station_col : string)
    : outcome pyval :=
  match read_meta_value wc_df_raw meta_map "station_name" with
  | Err e => Err e
  | Ok PNone =>
      match lookup_named wc_df_raw wc_station_col with
      | Some vals => Ok (match dropnull vals with v :: _ => v | [] => PStr "UNKNOWN" end)
      | None => Ok PNone
      end
  | Ok v => Ok v
  end.

Section StationId.

(** [str] of a number. *)
Variable repr_num : Q -> string.

Definition py_str (v : pyval) : string :=
  match v with
  | PNone => "None"
  | PStr s => s
  | PNum q => repr_num q
  end.

(** [station_id = str(station_name_val)] *)
Definition station_id (wc_df_raw : list (string * list pyval))
    (meta_map : list (string * list (string * pyval))) (wc_station_col : string)
    : outcome string :=
  match station_name_val wc_df_raw meta_map wc_station_col with
  | Ok v => Ok (py_str v)
  | Err e => Err e
  end.

End StationId.


(** * Concrete inputs *)

(** Eleven observed days with a missing day inside the span; the
    [annual_gam] column scores R² = 0.9 but predicts 1000 on the missing
    day, the [monthly_regres] column scores R² = 0.85. *)
Definition c2_obs : series :=
  [Some 0; Some 0; Some 0; Some 0; Some 0; Some 0; Some 0; Some 0; Some 0; None; Some 10]%Q.
Definition c2_gam : series :=
  [Some 3; Some 0; Some 0; Some 0; Some 0; Some 0; Some 0; Some 0; Some 0; Some 1000; Some 10]%Q.
Definition c2_regres : series :=
  [Some 3; Some 2; Some (1 # 2); Some (1 # 2); Some 0; Some 0; Some 0; Some 0; Some 0; Some 0;
   Some 10]%Q.
Definition c2_cols : list (string * series) :=
  [("annual_gam", c2_gam); ("monthly_regres", c2_regres)]%string.
Definition c2_scored (sfx : string) (col : series) : scored :=
  {| sc_suffix := sfx;
     sc_r2 := r2_score (valid_pairs (slice 0 10 c2_obs) (slice 0 10 col));
     sc_pred := slice 0 10 col |}.

(** Twenty zeros and one 1000, with only the linear column available. *)
Definition c1_obs : series := repeat (Some 0%Q) 20 ++ [Some 1000%Q].
Definition c1_cols : list (string * series) := [("linear_interp", c1_obs)]%string.

(** Observations on days 1 .. 11 of a 13-day calendar; the GAM column also
    predicts days 0 and 12. *)
Definition c7_obs : series :=
  None :: map (fun k => Some (Qofnat k)) (seq 1 11) ++ [None].
Definition c7_gam : series :=
  Some 5%Q :: map (fun k => Some (Qofnat k)) (seq 1 11) ++ [Some 5%Q].
Definition c7_cols : list (string * series) := [("annual_gam", c7_gam)]%string.
Definition c7_scored : scored :=
  {| sc_suffix := "annual_gam"%string;
     sc_r2 := r2_score (valid_pairs (slice 1 11 c7_obs) (slice 1 11 c7_gam));
     sc_pred := slice 1 11 c7_gam |}.

(** All observations are zero, with a 1500-day gap; the only donor column
    predicts zero everywhere, so its maximum is 3 times the observed one. *)
Definition c5_obs : series := repeat (Some 0%Q) 10 ++ repeat None 1500 ++ [Some 0%Q].
Definition c5_cols : list (string * series) :=
  [("monthly_regres", repeat (Some 0%Q) 1511)]%string.

(** Discharge of station A on days 3, 1 and again 3, and of station B; two
    chemistry samples of A on day 2 and one on day 7, outside the range. *)
Definition c8_q : list obs_row :=
  [ {| station := "A"; date := 3; value := Some 1%Q |};
    {| station := "A"; date := 1; value := Some 2%Q |};
    {| station := "A"; date := 3; value := Some 5%Q |};
    {| station := "B"; date := 0; value := Some 9%Q |} ]%string%Z.
Definition c8_wc : list obs_row :=
  [ {| station := "A"; date := 2; value := Some 4%Q |};
    {| station := "A"; date := 2; value := Some 6%Q |};
    {| station := "A"; date := 7; value := Some 1%Q |} ]%string%Z.

(** The anchor positions of the twelve monthly medians. *)
Definition anchors (y : Z) : list nat := map (anchor_pos y) (seq 1 12).

(** A run of three missing days, with [max_gap] 2. *)
Definition c3_input : series := [Some 0; None; None; None; Some 4]%Q.

(** The descending-R2 order of the ranking. *)
Definition r2_ge (a b : scored) : Prop := (sc_r2 b <= sc_r2 a)%Q.

(** * Lemmas on the list model *)

Lemma list_set_length {A} (l : list A) i x : length (list_set l i x) = length l.
Proof. revert i; induction l; intros [|i]; simpl; auto. Qed.

Lemma nth_list_set_eq {A} (l : list A) i x d :
  i < length l -> nth i (list_set l i x) d = x.
Proof.
  revert i; induction l as [|a l IH]; intros [|i] H; simpl in *; try lia; auto.
  f_equal; apply IH; lia.
Qed.

Lemma nth_list_set_neq {A} (l : list A) i j x d :
  i <> j -> nth j (list_set l i x) d = nth j l d.
Proof.
  revert i j; induction l as [|a l IH]; intros [|i] [|j] H; simpl; auto; try lia.
Qed.

Section FoldSet.
Context {A : Type}.

Lemma fold_set_length (ps : list (nat * A)) base :
  length (fold_left (fun acc (pv : nat * A) => list_set acc (fst pv) (snd pv)) ps base) = length base.
Proof.
  revert base; induction ps as [|p ps IH]; intro base; simpl; auto.
  rewrite IH; apply list_set_length.
Qed.

Lemma fold_set_nth_notin (ps : list (nat * A)) base p d :
  ~ In p (map fst ps) -> nth p (fold_left (fun acc (pv : nat * A) => list_set acc (fst pv) (snd pv)) ps base) d = nth p base d.
Proof.
  revert base; induction ps as [|[q v] ps IH]; intros base Hn; simpl in *; auto.
  rewrite IH by tauto; simpl.
  apply nth_list_set_neq; intro; subst; tauto.
Qed.

Lemma fold_set_nth_in (ps : list (nat * A)) base p v d :
  NoDup (map fst ps) -> In (p, v) ps -> p < length base ->
  nth p (fold_left (fun acc (pv : nat * A) => list_set acc (fst pv) (snd pv)) ps base) d = v.
Proof.
  revert base; induction ps as [|[q w] ps IH]; intros base Hnd Hin Hlt; simpl in *.
  - contradiction.
  - inversion Hnd as [|? ? Hq Hnd']; subst.
    destruct Hin as [E | Hin].
    + inversion E; subst.
      rewrite fold_set_nth_notin by assumption.
      simpl; apply nth_list_set_eq; assumption.
    + apply IH; auto.
      simpl; rewrite list_set_length; assumption.
Qed.
End FoldSet.

Lemma interpolate_linear_length l xs : length (interpolate_linear l xs) = length xs.
Proof. unfold interpolate_linear; rewrite length_map, length_seq; reflexivity. Qed.

Lemma nth_interpolate_linear l xs i :
  i < length xs -> nth i (interpolate_linear l xs) None = interp_at l xs i.
Proof.
  intro H; unfold interpolate_linear.
  rewrite (nth_indep _ None (interp_at l xs 0)) by (rewrite length_map, length_seq; lia).
  rewrite map_nth, seq_nth by lia; reflexivity.
Qed.

Lemma interp_at_valid l xs i v : nth i xs None = Some v -> interp_at l xs i = Some v.
Proof. unfold interp_at; intros ->; reflexivity. Qed.

Lemma nth_map_option_map (f : Q -> Q) (l : series) i :
  nth i (map (option_map f) l) None = option_map f (nth i l None).
Proof. revert i; induction l as [|x l IH]; intros [|i]; simpl; auto. Qed.

Lemma clamp0_nonneg x : (0 <= clamp0 x)%Q.
Proof.
  unfold clamp0, Qltb.
  destruct (Qle_bool 0 x) eqn:E; simpl.
  - apply Qle_bool_iff; assumption.
  - apply Qle_refl.
Qed.

(** ** The anchors of the monthly profile *)


Lemma anchors_layout y :
  NoDup (anchors y) /\
  Forall (fun p => 0 < p < days_in_year y - 1) (anchors y) /\
  anchor_pos y 1 = 14 /\ anchor_pos y 12 = month_start y 12 + 14.
Proof.
  unfold anchors, anchor_pos, month_start, month_lengths, days_in_year.
  destruct (is_leap y); cbn; (split; [|split; [|split]]); try reflexivity;
    first [ repeat (apply NoDup_cons; [cbn; lia|]); apply NoDup_nil
          | repeat (apply Forall_cons; [lia|]); apply Forall_nil ].
Qed.

(** Each anchor lies [month length - 17] days after the first of its month:
    the 15th of a 31-day month, the 14th of a 30-day month, February 12
    (February 13 in a leap year). *)
Lemma anchor_pos_in_month y m :
  1 <= m <= 12 ->
  anchor_pos y m = month_start y m + (nth (m - 1) (month_lengths y) 0 - 17).
Proof.
  intro Hm; unfold anchor_pos, month_start, month_lengths.
  destruct (is_leap y);
    do 13 (destruct m as [|m]; [first [lia | reflexivity] |]); lia.
Qed.

Lemma anchor_in_anchors y m : 1 <= m <= 12 -> In (anchor_pos y m) (anchors y).
Proof. intro; unfold anchors; apply in_map, in_seq; lia. Qed.

Lemma map_fst_combine {A B} (l1 : list A) (l2 : list B) :
  length l1 = length l2 -> map fst (combine l1 l2) = l1.
Proof.
  revert l2; induction l1 as [|a l1 IH]; intros [|b l2] H; simpl in *; try lia; auto.
  f_equal; apply IH; lia.
Qed.

Lemma place_anchors_length y monthly :
  length (place_anchors y monthly) = days_in_year y.
Proof. unfold place_anchors; rewrite fold_set_length, repeat_length; reflexivity. Qed.

Lemma nth_place_anchors y monthly m v :
  length monthly = 12 -> 1 <= m <= 12 -> nth (m - 1) monthly None = Some v ->
  nth (anchor_pos y m) (place_anchors y monthly) None = Some v.
Proof.
  intros Hlen Hm Hv; unfold place_anchors.
  destruct (anchors_layout y) as [Hnd [Hall _]].
  assert (HA : length (anchors y) = 12) by (unfold anchors; rewrite length_map, length_seq; reflexivity).
  apply fold_set_nth_in.
  - rewrite map_fst_combine; [exact Hnd | unfold anchors in HA; lia].
  - assert (Hn : nth (m - 1) (combine (anchors y) monthly) (0, None) =
                 (anchor_pos y m, Some v)).
    { rewrite combine_nth by lia. rewrite Hv. f_equal.
      unfold anchors.
      rewrite (nth_indep _ 0 (anchor_pos y 0)) by (rewrite length_map, length_seq; lia).
      rewrite map_nth, seq_nth by lia. f_equal; lia. }
    rewrite <- Hn. apply nth_In. rewrite length_combine. unfold anchors. rewrite length_map, length_seq, Hlen; simpl; lia.
  - rewrite repeat_length.
    rewrite Forall_forall in Hall; specialize (Hall _ (anchor_in_anchors y m Hm)); lia.
Qed.

Lemma days_in_year_bounds y : 365 <= days_in_year y <= 366.
Proof. unfold days_in_year; destruct (is_leap y); lia. Qed.

Lemma seed_year_ends_length monthly y :
  length (seed_year_ends monthly y) = days_in_year y.
Proof.
  unfold seed_year_ends; rewrite !list_set_length; apply place_anchors_length.
Qed.

Lemma nth_seed_year_ends_anchor monthly y m v :
  length monthly = 12 -> 1 <= m <= 12 -> nth (m - 1) monthly None = Some v ->
  nth (anchor_pos y m) (seed_year_ends monthly y) None = Some v.
Proof.
  intros Hlen Hm Hv.
  destruct (anchors_layout y) as [_ [Hall _]].
  rewrite Forall_forall in Hall; specialize (Hall _ (anchor_in_anchors y m Hm)).
  unfold seed_year_ends; cbv zeta.
  rewrite !nth_list_set_neq by lia.
  apply nth_place_anchors; assumption.
Qed.

Lemma nth_monthly_to_daily monthly y i :
  i < days_in_year y ->
  nth i (monthly_to_daily_for_year monthly y) None =
  option_map clamp0 (interp_at None (seed_year_ends monthly y) i).
Proof.
  intro Hi; unfold monthly_to_daily_for_year.
  rewrite nth_map_option_map, nth_interpolate_linear; [reflexivity|].
  rewrite seed_year_ends_length; exact Hi.
Qed.

Lemma seed_year_ends_endpoints monthly y j d :
  length monthly = 12 -> nth 0 monthly None = Some j -> nth 11 monthly None = Some d ->
  nth 0 (seed_year_ends monthly y) None = Some ((j - d) / 2 + d)%Q /\
  nth (days_in_year y - 1) (seed_year_ends monthly y) None = Some ((j - d) / 2 + d)%Q.
Proof.
  intros Hlen Hj Hd.
  destruct (anchors_layout y) as [_ [_ [H1 H12]]].
  pose proof (days_in_year_bounds y).
  pose proof (place_anchors_length y monthly) as HL.
  assert (E1 : nth 14 (place_anchors y monthly) None = Some j)
    by (rewrite <- H1; apply nth_place_anchors; auto; lia).
  assert (E12 : nth (month_start y 12 + 14) (place_anchors y monthly) None = Some d)
    by (rewrite <- H12; apply nth_place_anchors; auto; lia).
  unfold seed_year_ends; cbv zeta; rewrite E1, E12.
  split.
  - rewrite nth_list_set_neq by lia. apply nth_list_set_eq. lia.
  - apply nth_list_set_eq. rewrite list_set_length; lia.
Qed.

(** * MonthlyMedianProfile (claim C10) *)

(** C10, as stated: each month's median is placed at the 15th of its month.
    It fails: in 2021 the February median 10 sits on February 12, and
    February 15 carries the value interpolated towards the March anchor. *)
Lemma C10_median_not_on_15th :
  ~ (forall (y : Z) (monthly : list (option Q)) (m : nat) (v : Q),
       length monthly = 12 -> 1 <= m <= 12 -> nth (m - 1) monthly None = Some v ->
       exists w, nth (month_start y m + 14) (monthly_to_daily_for_year monthly y) None = Some w
                 /\ (w == clamp0 v)%Q).
Proof.
  intro H.
  destruct (H 2021%Z [Some 0; Some 10; Some 0; Some 0; Some 0; Some 0;
                      Some 0; Some 0; Some 0; Some 0; Some 0; Some 0]%Q 2 10%Q
              eq_refl ltac:(lia) eq_refl) as [w [Hw Heq]].
  vm_compute in Hw; injection Hw as <-.
  vm_compute in Heq; discriminate.
Qed.

(** C10 (amended): [monthly_to_daily_for_year] yields one value per day of
    the year; the median of month [m] is placed 17 days before the first of
    month [m + 1] (the 15th of a 31-day month, the 14th of a 30-day month,
    February 12, or 13 in a leap year); January 1 and December 31 are both
    seeded with the mean of the same year's January and December medians;
    a day between two defined days is the linear interpolation between the
    nearest of them; every negative value is clamped to zero. *)
Theorem monthly_to_daily_for_year_profile (monthly : list (option Q)) (y : Z) :
  length monthly = 12 ->
  let out := monthly_to_daily_for_year monthly y in
  length out = days_in_year y /\
  (forall m, 1 <= m <= 12 ->
     anchor_pos y m = month_start y m + (nth (m - 1) (month_lengths y) 0 - 17)) /\
  (forall m v, 1 <= m <= 12 -> nth (m - 1) monthly None = Some v ->
     nth (anchor_pos y m) out None = Some (clamp0 v)) /\
  (forall j d, nth 0 monthly None = Some j -> nth 11 monthly None = Some d ->
     nth 0 out None = Some (clamp0 ((j - d) / 2 + d)) /\
     nth (days_in_year y - 1) out None = Some (clamp0 ((j - d) / 2 + d))) /\
  (forall i a va b vb, i < days_in_year y ->
     nth i (seed_year_ends monthly y) None = None ->
     last_valid_before (seed_year_ends monthly y) i = Some (a, va) ->
     first_valid_after (seed_year_ends monthly y) i = Some (b, vb) ->
     nth i out None = Some (clamp0 (va + (vb - va) * (Qofnat (i - a) / Qofnat (b - a))))) /\
  (forall i v, nth i out None = Some v -> (0 <= v)%Q).
Proof.
  intros Hlen out.
  pose proof (days_in_year_bounds y) as Hdays.
  split; [|split; [|split; [|split; [|split]]]].
  - unfold out, monthly_to_daily_for_year.
    rewrite length_map, interpolate_linear_length; apply seed_year_ends_length.
  - apply anchor_pos_in_month.
  - intros m v Hm Hv.
    destruct (anchors_layout y) as [_ [Hall _]].
    rewrite Forall_forall in Hall; specialize (Hall _ (anchor_in_anchors y m Hm)).
    unfold out; rewrite nth_monthly_to_daily by lia.
    rewrite (interp_at_valid _ _ _ v); [reflexivity|].
    apply nth_seed_year_ends_anchor; assumption.
  - intros j d Hj Hd.
    destruct (seed_year_ends_endpoints monthly y j d Hlen Hj Hd) as [E0 El].
    unfold out; split.
    + rewrite nth_monthly_to_daily by lia.
      rewrite (interp_at_valid _ _ _ _ E0); reflexivity.
    + rewrite nth_monthly_to_daily by lia.
      rewrite (interp_at_valid _ _ _ _ El); reflexivity.
  - intros i a va b vb Hi Hn Ha Hb.
    unfold out; rewrite nth_monthly_to_daily by exact Hi.
    unfold interp_at; rewrite Hn; unfold np_interp_at; rewrite Ha, Hb; reflexivity.
  - intros i v Hv.
    unfold out, monthly_to_daily_for_year in Hv.
    rewrite nth_map_option_map in Hv.
    destruct (nth i _ None) as [x|]; simpl in Hv; [|discriminate].
    injection Hv as <-; apply clamp0_nonneg.
Qed.

Lemma monthly_to_daily_for_year_profile_witness :
  length [Some 1; Some 2; Some 3; Some 4; Some 5; Some 6;
          Some 7; Some 8; Some 9; Some 10; Some 11; Some 12]%Q = 12 /\
  nth (anchor_pos 2024 2) (monthly_to_daily_for_year
        [Some 1; Some 2; Some 3; Some 4; Some 5; Some 6;
         Some 7; Some 8; Some 9; Some 10; Some 11; Some 12]%Q 2024) None
    = Some (clamp0 2).
Proof.
  split; [reflexivity|].
  destruct (monthly_to_daily_for_year_profile
              [Some 1; Some 2; Some 3; Some 4; Some 5; Some 6;
               Some 7; Some 8; Some 9; Some 10; Some 11; Some 12]%Q 2024 eq_refl)
    as [_ [_ [Ha _]]].
  apply Ha; [lia | reflexivity].
Defined.

(** * LinearGapFill (claim C3) *)


(** C3: with [max_gap = 2], the run of three missing days of
    [0, NaN, NaN, NaN, 4] is longer than [max_gap], yet
    [interpolate_with_gap_limit] fills its first two days with 1 and 2
    (pandas' [limit] caps the number of filled NaNs per run; it does not
    skip long runs). *)
Theorem C3_long_run_partly_filled :
  exists ys, interpolate_with_gap_limit c3_input 2 = Some ys /\
    nan_run_len c3_input 1 = 3 /\ nan_run_len c3_input 2 = 3 /\ nan_run_len c3_input 3 = 3 /\
    (exists v1 v2, nth 1 ys None = Some v1 /\ (v1 == 1)%Q /\
                   nth 2 ys None = Some v2 /\ (v2 == 2)%Q) /\
    nth 3 ys None = None.
Proof.
  eexists; split; [reflexivity|].
  split; [reflexivity|]; split; [reflexivity|]; split; [reflexivity|].
  split; [|reflexivity].
  eexists; eexists; split; [reflexivity|]; split; [reflexivity|].
  split; reflexivity.
Qed.

(** * The plausibility bound *)

Lemma Qsum_nonneg (l : list Q) : Forall (fun x => 0 <= x)%Q l -> (0 <= Qsum l)%Q.
Proof.
  induction 1 as [|x l Hx _ IH]; simpl; [apply Qle_refl|].
  apply (Qle_trans _ (0 + 0)); [apply Qle_refl|]. apply Qplus_le_compat; assumption.
Qed.

Lemma sample_var_nonneg (obs : list Q) : (0 <= sample_var obs)%Q.
Proof.
  unfold sample_var, Qdiv.
  apply Qmult_le_0_compat.
  - apply Qsum_nonneg, Forall_forall; intros x Hx.
    apply in_map_iff in Hx as [y [<- _]].
    apply Qpower.Qsqr_nonneg.
  - apply Qinv_le_0_compat. unfold Qofnat, Qle; simpl; lia.
Qed.

Lemma Q2R_0 : Q2R 0 = 0%R.
Proof. unfold Q2R; simpl; lra. Qed.

Lemma Qltb_R (a b : Q) : Qltb a b = true <-> (Q2R a < Q2R b)%R.
Proof.
  unfold Qltb; rewrite negb_true_iff; split; intro H.
  - apply Qlt_Rlt, Qnot_le_lt; intro H'; apply Qle_bool_iff in H'; congruence.
  - apply Rlt_Qlt in H. destruct (Qle_bool b a) eqn:E; [|reflexivity].
    apply Qle_bool_iff in E. exfalso; apply (Qlt_not_le _ _ H E).
Qed.

Lemma Qle_bool_R (a b : Q) : Qle_bool a b = true <-> (Q2R a <= Q2R b)%R.
Proof.
  rewrite Qle_bool_iff; split; [apply Qle_Rle | apply Rle_Qle].
Qed.

Lemma Rlt_sq_nonneg (zs a : R) :
  (0 <= zs)%R -> ((zs < a)%R <-> (0 < a)%R /\ (zs * zs < a * a)%R).
Proof.
  intro Hz; split.
  - intro H; split; [lra|].
    assert (H1 : (0 < a - zs)%R) by lra. assert (H2 : (0 < a + zs)%R) by lra.
    pose proof (Rmult_lt_0_compat _ _ H1 H2). lra.
  - intros [Ha Hsq]. destruct (Rlt_or_le zs a) as [H|H]; [exact H|].
    assert (H1 : (0 <= zs - a)%R) by lra. assert (H2 : (0 <= zs + a)%R) by lra.
    pose proof (Rmult_le_pos _ _ H1 H2). lra.
Qed.

Lemma Rlt_sq_nonpos (zs a : R) :
  (zs <= 0)%R -> ((zs < a)%R <-> (0 < a)%R \/ (a * a < zs * zs)%R).
Proof.
  intro Hz; split.
  - intro H. destruct (Rlt_or_le 0 a) as [Ha|Ha]; [left; exact Ha | right].
    assert (H1 : (0 < a - zs)%R) by lra. assert (H2 : (0 <= - (a + zs))%R) by lra.
    assert (H3 : (0 < - (a + zs))%R) by lra.
    pose proof (Rmult_lt_0_compat _ _ H1 H3). lra.
  - intros [Ha | Hsq]; [lra|].
    destruct (Rlt_or_le zs a) as [H|H]; [exact H|].
    assert (H1 : (0 <= zs - a)%R) by lra. assert (H2 : (0 <= - (a + zs))%R) by lra.
    pose proof (Rmult_le_pos _ _ H1 H2). lra.
Qed.

(** [exceeds_bound] is the comparison [p > mean + z * std + tol] on the
    reals, [std] being the square root of the sample variance. *)
Lemma exceeds_bound_real (z tol : Q) (obs : list Q) (p : Q) :
  2 <= length obs ->
  exceeds_bound z tol obs p = true <->
  (Q2R (mean obs) + Q2R z * sqrt (Q2R (sample_var obs)) + Q2R tol < Q2R p)%R.
Proof.
  intro Hn; unfold exceeds_bound.
  destruct (length obs <? 2) eqn:E; [apply Nat.ltb_lt in E; lia|]; cbv zeta.
  assert (Hv : (0 <= Q2R (sample_var obs))%R)
    by (rewrite <- Q2R_0; apply Qle_Rle, sample_var_nonneg).
  pose proof (sqrt_pos (Q2R (sample_var obs))) as Hs.
  pose proof (sqrt_sqrt _ Hv) as Hss.
  set (sd := sqrt (Q2R (sample_var obs))) in *.
  set (V := Q2R (sample_var obs)) in *.
  assert (Hrew : forall a : R, (Q2R (mean obs) + Q2R z * sd + Q2R tol < a)%R <->
                               (Q2R z * sd < a - Q2R (mean obs) - Q2R tol)%R)
    by (intro; split; intro; lra).
  rewrite Hrew.
  destruct (Qle_bool 0 z) eqn:Ez.
  - apply Qle_bool_R in Ez; rewrite Q2R_0 in Ez.
    rewrite andb_true_iff, !Qltb_R, Q2R_0, !Q2R_mult, !Q2R_minus.
    fold V; rewrite <- Hss.
    replace (Q2R z * Q2R z * (sd * sd))%R with ((Q2R z * sd) * (Q2R z * sd))%R by ring.
    symmetry; apply Rlt_sq_nonneg, Rmult_le_pos; assumption.
  - assert (Ez' : (Q2R z < 0)%R).
    { apply Rnot_le_lt; intro H'; rewrite <- Q2R_0 in H'.
      apply Qle_bool_R in H'; congruence. }
    rewrite orb_true_iff, !Qltb_R, Q2R_0, !Q2R_mult, !Q2R_minus.
    fold V; rewrite <- Hss.
    replace (Q2R z * Q2R z * (sd * sd))%R with ((Q2R z * sd) * (Q2R z * sd))%R by ring.
    symmetry; apply Rlt_sq_nonpos.
    nra.
Qed.


(** * Ranking of the candidates *)


Lemma insert_desc_perm x l : Permutation (x :: l) (insert_desc x l).
Proof.
  induction l as [|y t IH]; simpl; [reflexivity|].
  destruct (Qle_bool (sc_r2 y) (sc_r2 x)); [reflexivity|].
  rewrite perm_swap; constructor; exact IH.
Qed.

Lemma sort_desc_perm l : Permutation l (sort_desc l).
Proof.
  induction l as [|x l IH]; simpl; [reflexivity|].
  rewrite <- insert_desc_perm; constructor; exact IH.
Qed.

Lemma insert_desc_hd y x t :
  HdRel r2_ge y t -> r2_ge y x -> HdRel r2_ge y (insert_desc x t).
Proof.
  destruct t as [|z t]; simpl; intros Ht Hx.
  - constructor; exact Hx.
  - destruct (Qle_bool (sc_r2 z) (sc_r2 x)); constructor; [exact Hx|].
    inversion Ht; assumption.
Qed.

Lemma insert_desc_sorted x l : Sorted r2_ge l -> Sorted r2_ge (insert_desc x l).
Proof.
  induction l as [|y t IH]; simpl; intro Hs.
  - repeat constructor.
  - destruct (Qle_bool (sc_r2 y) (sc_r2 x)) eqn:E.
    + constructor; [exact Hs|]. constructor. apply Qle_bool_iff; exact E.
    + inversion Hs as [|? ? Ht Hhd]; subst.
      constructor; [apply IH; exact Ht|].
      apply insert_desc_hd; [exact Hhd|].
      unfold r2_ge. apply Qlt_le_weak, Qnot_le_lt.
      intro H; apply Qle_bool_iff in H; congruence.
Qed.

Lemma sort_desc_sorted l : Sorted r2_ge (sort_desc l).
Proof.
  induction l as [|x l IH]; simpl; [constructor|].
  apply insert_desc_sorted; exact IH.
Qed.

Lemma r2_ge_trans : Transitive r2_ge.
Proof. intros a b c Hab Hbc; unfold r2_ge in *; apply (Qle_trans _ (sc_r2 b)); assumption. Qed.

Lemma find_split {A} (f : A -> bool) l x :
  find f l = Some x ->
  exists pre post, l = pre ++ x :: post /\ Forall (fun y => f y = false) pre /\ f x = true.
Proof.
  induction l as [|y l IH]; simpl; [discriminate|].
  destruct (f y) eqn:E.
  - intro H; injection H as <-. exists [], l; auto.
  - intro H; destruct (IH H) as [pre [post [-> [Hf Hx]]]].
    exists (y :: pre), post; auto.
Qed.

Lemma sorted_after (pre post : list scored) m y :
  Sorted r2_ge (pre ++ m :: post) -> In y post -> (sc_r2 y <= sc_r2 m)%Q.
Proof.
  intros Hs Hy.
  apply Sorted_StronglySorted in Hs; [|exact r2_ge_trans].
  induction pre as [|a pre IH]; simpl in Hs.
  - inversion Hs as [|? ? _ Hall]; subst.
    rewrite Forall_forall in Hall; apply Hall; exact Hy.
  - inversion Hs; subst; apply IH; assumption.
Qed.

(** * Primary selection (claims C1 and C2) *)

(** C2: the primary method is chosen among the candidates scoring at least
    [r2_threshold]; they are tried in descending R² order (a stable sort)
    and the first to pass the plausibility gate is taken, so every
    candidate with a higher score failed the gate.  In particular, with
    the default configuration, when the candidates scored are one with
    R² = 0.9 that has a predicted value above [mean + 3 * std + 50] and one
    with R² = 0.85 that has none, the 0.85 candidate is the primary. *)
Theorem C2_ranked_selection (cfg : sel_cfg) (cols : list (string * series))
    (obs : series) (s e : nat) :
  let y_obs := slice s e obs in
  let scs := scored_candidates cfg cols y_obs s e in
  let good := good_methods cfg scs in
  (Permutation good (sort_desc good) /\ Sorted r2_ge (sort_desc good) /\
   (forall m, ranked_primary cfg cols obs s e = Some m ->
      In m scs /\ (r2_threshold cfg <= sc_r2 m)%Q /\
      passes_gate cfg (dropna y_obs) (sc_pred m) = true /\
      (exists pre post, sort_desc good = pre ++ m :: post /\
         Forall (fun m' => passes_gate cfg (dropna y_obs) (sc_pred m') = false) pre) /\
      (forall m', In m' scs -> (r2_threshold cfg <= sc_r2 m')%Q -> (sc_r2 m < sc_r2 m')%Q ->
         passes_gate cfg (dropna y_obs) (sc_pred m') = false))) /\
  (forall a b,
     Permutation (scored_candidates default_sel_cfg cols y_obs s e) [a; b] ->
     (sc_r2 a == 9 # 10)%Q -> (sc_r2 b == 17 # 20)%Q ->
     (exists p, In (Some p) (sc_pred a) /\ exceeds_bound 3 50 (dropna y_obs) p = true) ->
     (forall p, In (Some p) (sc_pred b) -> exceeds_bound 3 50 (dropna y_obs) p = false) ->
     ranked_primary default_sel_cfg cols obs s e = Some b).
Proof.
  intros y_obs scs good.
  split; [split; [apply sort_desc_perm | split; [apply sort_desc_sorted|]]|].
  - intros m Hm.
    unfold ranked_primary in Hm; fold y_obs scs good in Hm.
    destruct (find_split _ _ _ Hm) as [pre [post [Hsplit [Hpre Hg]]]].
    assert (Hin : In m good).
    { apply (Permutation_in _ (Permutation_sym (sort_desc_perm good))).
      rewrite Hsplit; apply in_or_app; right; left; reflexivity. }
    unfold good, good_methods in Hin; apply filter_In in Hin as [Hin Hthr].
    split; [exact Hin|]; split; [apply Qle_bool_iff; exact Hthr|].
    split; [exact Hg|]; split; [exists pre, post; split; assumption|].
    intros m' Hm' Hthr' Hlt.
    assert (Hin' : In m' (sort_desc good)).
    { apply (Permutation_in _ (sort_desc_perm good)).
      unfold good, good_methods; apply filter_In; split; [exact Hm'|].
      apply Qle_bool_iff; exact Hthr'. }
    rewrite Hsplit in Hin'; apply in_app_or in Hin' as [Hp | [E | Hp]].
    + rewrite Forall_forall in Hpre; apply Hpre; exact Hp.
    + subst m'; exfalso; apply (Qlt_irrefl _ Hlt).
    + pose proof (sort_desc_sorted good) as Hs; rewrite Hsplit in Hs.
      exfalso; apply (Qlt_not_le _ _ Hlt), (sorted_after pre post m m' Hs Hp).
  - intros a b Hperm Ha Hb [p [Hp Hex]] Hb_ok.
    assert (Ta : Qle_bool (4 # 5) (sc_r2 a) = true)
      by (apply Qle_bool_iff; rewrite Ha; apply Qle_bool_iff; reflexivity).
    assert (Tb : Qle_bool (4 # 5) (sc_r2 b) = true)
      by (apply Qle_bool_iff; rewrite Hb; apply Qle_bool_iff; reflexivity).
    assert (Tba : Qle_bool (sc_r2 b) (sc_r2 a) = true)
      by (apply Qle_bool_iff; rewrite Ha, Hb; apply Qle_bool_iff; reflexivity).
    assert (Tab : Qle_bool (sc_r2 a) (sc_r2 b) = false).
    { destruct (Qle_bool (sc_r2 a) (sc_r2 b)) eqn:E; [|reflexivity].
      apply Qle_bool_iff in E; rewrite Ha, Hb in E; apply Qle_bool_iff in E.
      discriminate. }
    assert (Ga : passes_gate default_sel_cfg (dropna y_obs) (sc_pred a) = false).
    { unfold passes_gate; simpl. apply negb_false_iff, existsb_exists.
      exists p; split; [|exact Hex].
      clear -Hp; induction (sc_pred a) as [|[x|] t IH]; simpl in *;
        [contradiction | destruct Hp as [E|E]; [injection E as ->; left; reflexivity | right; auto]
        | destruct Hp as [E|E]; [discriminate | auto]]. }
    assert (Gb : passes_gate default_sel_cfg (dropna y_obs) (sc_pred b) = true).
    { unfold passes_gate; simpl. apply negb_true_iff.
      destruct (existsb _ _) eqn:E; [|reflexivity].
      apply existsb_exists in E as [q [Hq Hq']].
      rewrite Hb_ok in Hq'; [discriminate|].
      clear -Hq; induction (sc_pred b) as [|[x|] t IH]; simpl in *;
        [contradiction | destruct Hq as [E|E]; [left; congruence | right; auto] | right; auto]. }
    unfold ranked_primary; fold y_obs.
    apply Permutation_sym, Permutation_length_2_inv in Hperm as [-> | ->]; simpl;
      rewrite ?Ta, ?Tb; simpl; rewrite ?Tab, ?Tba; simpl; rewrite ?Ga, ?Gb; reflexivity.
Qed.

Lemma in_dropna (xs : series) p : In (Some p) xs <-> In p (dropna xs).
Proof.
  induction xs as [|[x|] t IH]; simpl; [tauto| |].
  - rewrite <- IH; split; intros [E|E]; auto; [injection E as ->|subst]; auto.
  - rewrite <- IH; split; [intros [E|E]; [discriminate|exact E] | auto].
Qed.

Lemma passes_gate_spec cfg obs pred :
  passes_gate cfg obs pred = true ->
  forall p, In (Some p) pred -> exceeds_bound (z_score_limit cfg) (tolerance cfg) obs p = false.
Proof.
  unfold passes_gate; intros H p Hp.
  apply negb_true_iff in H.
  destruct (exceeds_bound _ _ obs p) eqn:E; [|reflexivity].
  rewrite <- H; symmetry; apply existsb_exists; exists p; split; [|exact E].
  apply in_dropna; exact Hp.
Qed.

Lemma C2_ranked_selection_witness :
  ranked_primary default_sel_cfg c2_cols c2_obs 0 10 = Some (c2_scored "monthly_regres" c2_regres).
Proof.
  apply (proj2 (C2_ranked_selection default_sel_cfg c2_cols c2_obs 0 10)
                (c2_scored "annual_gam" c2_gam) (c2_scored "monthly_regres" c2_regres)).
  - vm_compute; apply Permutation_refl.
  - vm_compute; reflexivity.
  - vm_compute; reflexivity.
  - exists 1000%Q; split; [|vm_compute; reflexivity].
    change (Some 1000%Q) with (nth 9 (sc_pred (c2_scored "annual_gam" c2_gam)) None).
    apply nth_In; vm_compute; lia.
  - intros p Hp; vm_compute in Hp.
    repeat (destruct Hp as [Hp|Hp]; [injection Hp as <-; vm_compute; reflexivity|]).
    contradiction.
Defined.

(** C1 (amended): a method accepted by the ranked primary selection is the
    selected method and none of its predicted values over the observed span
    exceeds [mean + z * std + tolerance] (see [exceeds_bound_real]). *)
Theorem C1_ranked_primary_within_bound (cfg : sel_cfg) (cols : list (string * series))
    (obs : series) (s e : nat) (m : scored) :
  ranked_primary cfg cols obs s e = Some m ->
  select_primary cfg cols obs s e = Some (sc_suffix m, sc_pred m) /\
  (forall p, In (Some p) (sc_pred m) ->
     exceeds_bound (z_score_limit cfg) (tolerance cfg) (dropna (slice s e obs)) p = false).
Proof.
  intro H; split.
  - unfold select_primary; rewrite H; reflexivity.
  - unfold ranked_primary in H.
    apply find_some in H as [_ Hg].
    apply passes_gate_spec; exact Hg.
Qed.

Lemma C1_ranked_primary_within_bound_witness :
  ranked_primary default_sel_cfg c2_cols c2_obs 0 10 = Some (c2_scored "monthly_regres" c2_regres) /\
  select_primary default_sel_cfg c2_cols c2_obs 0 10 =
    Some ("monthly_regres"%string, slice 0 10 c2_regres).
Proof.
  assert (H : ranked_primary default_sel_cfg c2_cols c2_obs 0 10 =
              Some (c2_scored "monthly_regres" c2_regres)) by (vm_compute; reflexivity).
  split; [exact H|].
  exact (proj1 (C1_ranked_primary_within_bound default_sel_cfg c2_cols c2_obs 0 10 _ H)).
Defined.

(** C1, as stated, fails for the fallback: no candidate column is scored,
    so the linear column is taken without the outlier check, and its value
    1000 lies above [mean + 3 * std + 50] of the observations. *)
Lemma C1_fallback_not_gated :
  ~ (forall obs cols d s e i p,
       select_variable default_sel_cfg obs cols = Some d -> obs_span obs = Some (s, e) ->
       s <= i <= e -> nth i (final d) None = Some p ->
       exceeds_bound 3 50 (dropna (slice s e obs)) p = false).
Proof.
  intro H.
  pose (d := match select_variable default_sel_cfg c1_obs c1_cols with
             | Some d => d | None => Build_decision "" None [] end).
  assert (Hd : select_variable default_sel_cfg c1_obs c1_cols = Some d)
    by (unfold d; vm_compute; reflexivity).
  specialize (H c1_obs c1_cols d 0 20 20 1000%Q Hd ltac:(vm_compute; reflexivity)
                ltac:(lia) ltac:(unfold d; vm_compute; reflexivity)).
  vm_compute in H; discriminate.
Qed.

(** * Gap-fill pass (claims C4 and C5) *)

Lemma fill_missing_length sel d : length (fill_missing sel d) = length sel.
Proof.
  revert d; induction sel as [|x sel IH]; intros [|y d]; simpl; auto;
    destruct x; simpl; auto.
Qed.

Lemma nth_fill_missing sel d i :
  i < length sel ->
  nth i (fill_missing sel d) None =
  match nth i sel None with Some v => Some v | None => nth i d None end.
Proof.
  revert d i; induction sel as [|x sel IH]; intros d i Hi; simpl in Hi; [lia|].
  destruct d as [|y d].
  - assert (E : fill_missing (x :: sel) [] = x :: sel) by (destruct x; reflexivity).
    rewrite E; destruct (nth i (x :: sel) None); [reflexivity|].
    destruct i; reflexivity.
  - destruct i as [|i].
    + destruct x; reflexivity.
    + destruct x; simpl; apply IH; lia.
Qed.

Lemma nth_none_beyond {A} (l : list (option A)) i : length l <= i -> nth i l None = None.
Proof. intro; apply nth_overflow; assumption. Qed.

Lemma gap_fill_pass_keeps cfg cols y_obs s e sel i v :
  nth i sel None = Some v -> nth i (fst (gap_fill_pass cfg cols y_obs s e sel)) None = Some v.
Proof.
  intro Hv; unfold gap_fill_pass.
  destruct (existsb is_none sel); [|exact Hv].
  destruct (sort_desc _) as [|best rest]; [exact Hv|].
  destruct (any_avail sel (sc_pred best)); [|exact Hv].
  assert (Hi : i < length sel).
  { destruct (Nat.lt_ge_cases i (length sel)); [assumption|].
    rewrite nth_none_beyond in Hv by assumption; discriminate. }
  simpl; rewrite nth_fill_missing, Hv by exact Hi; reflexivity.
Qed.

(** C4: the gap-fill pass keeps every value of the selected series and
    changes only missing positions, which receive the values of a donor
    that survived the donor checks; on a series without missing positions
    it changes nothing and uses no donor. *)
Theorem C4_gap_fill_only_missing (cfg : sel_cfg) (cols : list (string * series))
    (y_obs : series) (s e : nat) (sel : series) :
  let res := gap_fill_pass cfg cols y_obs s e sel in
  length (fst res) = length sel /\
  (forall i v, nth i sel None = Some v -> nth i (fst res) None = Some v) /\
  (forall i, nth i (fst res) None <> nth i sel None ->
     nth i sel None = None /\
     exists best, In best (donor_candidates cfg cols y_obs s e (1460 <=? longest_gap sel)) /\
       snd res = Some (sc_suffix best) /\ nth i (fst res) None = nth i (sc_pred best) None) /\
  (existsb is_none sel = false -> res = (sel, None)).
Proof.
  intro res; unfold res, gap_fill_pass.
  destruct (existsb is_none sel) eqn:En.
  2: { simpl; repeat split; intros; first [reflexivity | assumption | congruence]. }
  destruct (sort_desc (donor_candidates cfg cols y_obs s e (1460 <=? longest_gap sel)))
    as [|best rest] eqn:Es.
  { simpl; repeat split; intros; first [reflexivity | assumption | congruence]. }
  destruct (any_avail sel (sc_pred best)) eqn:Ea.
  2: { simpl; repeat split; intros; first [reflexivity | assumption | congruence]. }
  simpl; split; [apply fill_missing_length|]; split; [|split; [|discriminate]].
  - intros i v Hv.
    pose proof (gap_fill_pass_keeps cfg cols y_obs s e sel i v Hv) as H.
    unfold gap_fill_pass in H; rewrite En, Es, Ea in H; exact H.
  - intros i Hne.
    assert (Hi : i < length sel).
    { destruct (Nat.lt_ge_cases i (length sel)) as [|H]; [assumption|].
      rewrite !nth_none_beyond in Hne by (rewrite ?fill_missing_length; exact H).
      congruence. }
    rewrite nth_fill_missing in * by exact Hi.
    destruct (nth i sel None) eqn:Ei; [congruence|].
    split; [reflexivity|].
    exists best; split; [|split; reflexivity].
    apply (Permutation_in _ (Permutation_sym (sort_desc_perm
      (donor_candidates cfg cols y_obs s e (1460 <=? longest_gap sel))))).
    rewrite Es; left; reflexivity.
Qed.

Lemma Qltb_Q (a b : Q) : Qltb a b = true <-> (a < b)%Q.
Proof.
  unfold Qltb; rewrite negb_true_iff; split; intro H.
  - apply Qnot_le_lt; intro H'; apply Qle_bool_iff in H'; congruence.
  - destruct (Qle_bool b a) eqn:E; [|reflexivity].
    apply Qle_bool_iff in E; exfalso; apply (Qlt_not_le _ _ H E).
Qed.

Lemma list_max_list_min (l : list Q) m : list_max l = Some m -> exists m', list_min l = Some m'.
Proof. destruct l; simpl; [discriminate | intros _; eexists; reflexivity]. Qed.

Lemma in_donor_candidates cfg cols y_obs s e long_gap sc :
  In sc (donor_candidates cfg cols y_obs s e long_gap) <->
  exists sfx, In sfx donor_suffixes /\ score_col cols y_obs s e sfx = Some sc /\
              donor_ok cfg y_obs long_gap sc = true.
Proof.
  unfold donor_candidates; rewrite in_flat_map; split.
  - intros [sfx [Hsfx Hin]]; apply filter_In in Hin as [Hin Hok].
    exists sfx; split; [exact Hsfx|]; split; [|exact Hok].
    destruct (score_col cols y_obs s e sfx); simpl in Hin; [|contradiction].
    destruct Hin as [<-|[]]; reflexivity.
  - intros [sfx [Hsfx [Hsc Hok]]]; exists sfx; split; [exact Hsfx|].
    apply filter_In; rewrite Hsc; split; [left; reflexivity | exact Hok].
Qed.

(** C5 (amended): a scored donor is dropped for extreme predictions exactly
    when the longest run of missing days of the selected series is at least
    1460 days and [too_extreme] holds; with ratio 2, a donor whose predicted
    maximum is 3 times a positive observed maximum is too extreme; when no
    donor survives, the gap-fill pass leaves the series as it is. *)
Theorem C5_extreme_donor_rejection (cfg : sel_cfg) (cols : list (string * series))
    (y_obs : series) (s e : nat) (sel : series) :
  let long_gap := 1460 <=? longest_gap sel in
  (forall sfx sc, In sfx donor_suffixes -> score_col cols y_obs s e sfx = Some sc ->
     (In sc (donor_candidates cfg cols y_obs s e long_gap) <->
      ~ (1460 <= longest_gap sel /\
         too_extreme (extreme_ratio_limit cfg) y_obs (sc_pred sc) = true))) /\
  (forall pred omax pmax, (extreme_ratio_limit cfg == 2)%Q -> (0 < omax)%Q ->
     list_max (dropna y_obs) = Some omax -> list_max (dropna pred) = Some pmax ->
     (pmax == 3 * omax)%Q ->
     too_extreme (extreme_ratio_limit cfg) y_obs pred = true) /\
  (donor_candidates cfg cols y_obs s e long_gap = [] ->
     gap_fill_pass cfg cols y_obs s e sel = (sel, None)).
Proof.
  intro long_gap; split; [|split].
  - intros sfx sc Hsfx Hsc.
    rewrite in_donor_candidates; unfold donor_ok, long_gap.
    split.
    + intros [sfx' [_ [_ Hok]]] [Hlg Hte].
      apply Nat.leb_le in Hlg; rewrite Hlg, Hte in Hok; discriminate.
    + intro Hn; exists sfx; split; [exact Hsfx|]; split; [exact Hsc|].
      apply negb_true_iff, andb_false_iff.
      destruct (1460 <=? longest_gap sel) eqn:E; [right | left; reflexivity].
      apply Nat.leb_le in E.
      destruct (too_extreme _ y_obs (sc_pred sc)); [exfalso; apply Hn; auto | reflexivity].
  - intros pred omax pmax Hr Hpos Ho Hp Hpm.
    destruct (list_max_list_min _ _ Ho) as [omin Homin].
    destruct (list_max_list_min _ _ Hp) as [pmin Hpmin].
    unfold too_extreme; rewrite Homin, Ho, Hpmin, Hp.
    apply orb_true_iff; left; apply Qltb_Q.
    rewrite Hr, Hpm. lra.
  - intro H; unfold gap_fill_pass; fold long_gap; rewrite H; simpl.
    destruct (existsb is_none sel); reflexivity.
Qed.

(** C5 (counterexample): with all observations zero, a donor predicting zero
    everywhere has a maximum of 3 times the observed maximum, yet it survives
    the extreme check of a 1500-day gap and fills that gap. *)
Lemma C5_zero_max_donor_kept :
  let y_obs := slice 0 1510 c5_obs in
  let res := gap_fill_pass default_sel_cfg c5_cols y_obs 0 1510 y_obs in
  longest_gap y_obs = 1500 /\
  list_max (dropna y_obs) = Some 0%Q /\
  list_max (dropna (repeat (Some 0%Q) 1511)) = Some (3 * 0)%Q /\
  lookup_col c5_cols "monthly_regres" = Some (repeat (Some 0%Q) 1511) /\
  extreme_ratio_limit default_sel_cfg = 2%Q /\
  nth 100 y_obs None = None /\
  snd res = Some "monthly_regres"%string /\
  nth 100 (fst res) None = Some 0%Q.
Proof. vm_compute; repeat split. Qed.

(** * Primary series in the final series (claim C7) *)

Lemma last_valid_before_lt xs i j v : last_valid_before xs i = Some (j, v) -> j < i.
Proof.
  induction i as [|i IH]; simpl; [discriminate|].
  destruct (nth i xs None); [intro H; injection H; intros; lia|].
  intro H; specialize (IH H); lia.
Qed.

Lemma first_valid_index_from_ge xs k s : first_valid_index_from xs k = Some s -> k <= s.
Proof.
  revert k; induction xs as [|[x|] xs IH]; intros k; simpl; [discriminate| |].
  - intro H; injection H; lia.
  - intro H; specialize (IH _ H); lia.
Qed.

Lemma obs_span_bounds obs s e : obs_span obs = Some (s, e) -> e < length obs.
Proof.
  unfold obs_span.
  destruct (first_valid_index_from obs 0); [|discriminate].
  destruct (last_valid_before obs (length obs)) as [[j v]|] eqn:E; [|discriminate].
  intro H; injection H; intros <- <-; exact (last_valid_before_lt _ _ _ _ E).
Qed.

Lemma in_scored_candidates cfg cols y_obs s e sc :
  In sc (scored_candidates cfg cols y_obs s e) ->
  exists col, lookup_col cols (sc_suffix sc) = Some col /\ sc_pred sc = slice s e col.
Proof.
  unfold scored_candidates; rewrite in_flat_map; intros [sfx [_ Hin]].
  unfold score_col in Hin.
  destruct (lookup_col cols sfx) as [col|] eqn:El; [|contradiction].
  unfold score_candidate in Hin.
  destruct (length (valid_pairs y_obs (slice s e col)) <? 10); [contradiction|].
  destruct Hin as [<-|[]]; simpl; exists col; split; [exact El | reflexivity].
Qed.

Lemma ranked_primary_in cfg cols obs s e m :
  ranked_primary cfg cols obs s e = Some m ->
  In m (scored_candidates cfg cols (slice s e obs) s e).
Proof.
  unfold ranked_primary; intro H; apply find_some in H as [H _].
  apply (Permutation_in _ (Permutation_sym (sort_desc_perm _))) in H.
  unfold good_methods in H; apply filter_In in H as [H _]; exact H.
Qed.

Lemma nth_slice s e (xs : series) i :
  s <= i <= e -> nth (i - s) (slice s e xs) None = nth i xs None.
Proof.
  intro H; unfold slice; rewrite nth_firstn.
  replace (i - s <? S e - s) with true by (symmetry; apply Nat.ltb_lt; lia).
  rewrite nth_skipn; f_equal; lia.
Qed.

Lemma nth_map_seq {A} (f : nat -> option A) n i :
  nth i (map f (seq 0 n)) None = if i <? n then f i else None.
Proof.
  destruct (i <? n) eqn:E.
  - apply Nat.ltb_lt in E.
    rewrite (nth_indep _ None (f 0)) by (rewrite length_map, length_seq; lia).
    rewrite map_nth, seq_nth by lia; reflexivity.
  - apply Nat.ltb_ge in E; apply nth_overflow; rewrite length_map, length_seq; lia.
Qed.

(** C7 (amended): when a method is accepted as primary, its predictions are
    those of its column restricted to the observed span; the final series has
    one entry per day of the calendar, is missing outside the observed span,
    and carries every prediction of the accepted column inside that span. *)
Theorem C7_primary_series_over_span (cfg : sel_cfg) (obs : series)
    (cols : list (string * series)) (s e : nat) (m : scored) :
  obs_span obs = Some (s, e) ->
  ranked_primary cfg cols obs s e = Some m ->
  exists col d,
    lookup_col cols (sc_suffix m) = Some col /\
    sc_pred m = slice s e col /\
    select_variable cfg obs cols = Some d /\
    primary_method d = sc_suffix m /\
    length (final d) = length obs /\
    (forall i, i < s \/ e < i -> nth i (final d) None = None) /\
    (forall i v, s <= i <= e -> nth i col None = Some v -> nth i (final d) None = Some v).
Proof.
  intros Hspan Hrank.
  destruct (in_scored_candidates _ _ _ _ _ _ (ranked_primary_in _ _ _ _ _ _ Hrank))
    as [col [Hcol Hpred]].
  pose proof (obs_span_bounds _ _ _ Hspan) as He.
  unfold select_variable; rewrite Hspan.
  unfold select_primary; rewrite Hrank.
  pose proof (gap_fill_pass_keeps cfg cols (slice s e obs) s e (sc_pred m)) as Hkeep.
  destruct (gap_fill_pass cfg cols (slice s e obs) s e (sc_pred m)) as [filled fb] eqn:Eg.
  simpl in Hkeep.
  eexists col, _; split; [exact Hcol|]; split; [exact Hpred|]; split; [reflexivity|].
  simpl; split; [reflexivity|]; split; [|split].
  - rewrite length_map, length_seq; reflexivity.
  - intros i Hi; rewrite nth_map_seq.
    destruct (i <? length obs); [|reflexivity].
    replace ((s <=? i) && (i <=? e)) with false; [reflexivity|].
    symmetry; apply andb_false_iff.
    destruct Hi; [left; apply Nat.leb_gt | right; apply Nat.leb_gt]; lia.
  - intros i v Hi Hv; rewrite nth_map_seq.
    replace (i <? length obs) with true by (symmetry; apply Nat.ltb_lt; lia).
    replace ((s <=? i) && (i <=? e)) with true
      by (symmetry; apply andb_true_iff; split; apply Nat.leb_le; lia).
    apply Hkeep; rewrite Hpred, nth_slice by lia; exact Hv.
Qed.

Lemma C7_primary_series_over_span_witness :
  obs_span c7_obs = Some (1, 11) /\
  ranked_primary default_sel_cfg c7_cols c7_obs 1 11 = Some c7_scored /\
  exists col d,
    lookup_col c7_cols (sc_suffix c7_scored) = Some col /\
    sc_pred c7_scored = slice 1 11 col /\
    select_variable default_sel_cfg c7_obs c7_cols = Some d /\
    primary_method d = sc_suffix c7_scored /\
    length (final d) = length c7_obs /\
    (forall i, i < 1 \/ 11 < i -> nth i (final d) None = None) /\
    (forall i v, 1 <= i <= 11 -> nth i col None = Some v -> nth i (final d) None = Some v).
Proof.
  assert (Hs : obs_span c7_obs = Some (1, 11)) by (vm_compute; reflexivity).
  assert (Hr : ranked_primary default_sel_cfg c7_cols c7_obs 1 11 = Some c7_scored)
    by (vm_compute; reflexivity).
  split; [exact Hs|]; split; [exact Hr|].
  exact (C7_primary_series_over_span default_sel_cfg c7_obs c7_cols 1 11 c7_scored Hs Hr).
Defined.

(** C7 (counterexample): the accepted GAM column predicts 5 on day 0, outside
    the observed span, but the final series is missing on that day. *)
Lemma C7_prediction_outside_span_dropped :
  ~ (forall obs cols s e m col d i v,
       obs_span obs = Some (s, e) ->
       ranked_primary default_sel_cfg cols obs s e = Some m ->
       lookup_col cols (sc_suffix m) = Some col ->
       select_variable default_sel_cfg obs cols = Some d ->
       nth i col None = Some v -> nth i (final d) None = Some v).
Proof.
  intro H.
  pose (d := match select_variable default_sel_cfg c7_obs c7_cols with
             | Some d => d | None => Build_decision "" None [] end).
  specialize (H c7_obs c7_cols 1 11 c7_scored c7_gam d 0 5%Q
                ltac:(vm_compute; reflexivity) ltac:(vm_compute; reflexivity)
                ltac:(vm_compute; reflexivity) ltac:(unfold d; vm_compute; reflexivity)
                ltac:(vm_compute; reflexivity)).
  vm_compute in H; discriminate.
Qed.

(** * The flux pipeline (claim C6) *)

Lemma existsb_date_filter (df : list (string * series)) :
  existsb (fun kv => String.eqb (fst kv) "date")
          (filter (fun kv => negb (String.eqb (fst kv) "date")) df) = false.
Proof.
  induction df as [|[n c] df IH]; simpl; [reflexivity|].
  destruct (String.eqb n "date") eqn:E; simpl; [exact IH|].
  rewrite E; exact IH.
Qed.

Lemma lookup_col_date_filter (df : list (string * series)) :
  lookup_col (filter (fun kv => negb (String.eqb (fst kv) "date")) df) "date" = None.
Proof.
  unfold lookup_col.
  induction df as [|[n c] df IH]; simpl; [reflexivity|].
  destruct (String.eqb n "date") eqn:E; simpl; [exact IH|].
  rewrite E; exact IH.
Qed.

Lemma flux_plot_vars_filter (df : list (string * series)) :
  filter (fun kv => negb (String.eqb (fst kv) "discharge") && negb (forallb is_none (snd kv)))
         (filter (fun kv => negb (String.eqb (fst kv) "date")) df) = flux_plot_vars df.
Proof.
  unfold flux_plot_vars.
  induction df as [|[n c] df IH]; simpl; [reflexivity|].
  destruct (String.eqb n "date"); simpl; [exact IH|].
  destruct (negb (String.eqb n "discharge") && negb (forallb is_none c)); simpl;
    rewrite IH; reflexivity.
Qed.

(** C6: the flux pipeline never completes and writes no file: whatever
    precedes it, it ends in an error with the files written so far
    unchanged. On a daily flux table with a date column, [plot_daily_fluxes]
    raises before saving the daily plot: [KeyError: 'date'] (the date is
    then the index, not a column) when some flux column has a value, and
    [ValueError] from [plt.subplots(0, 3)] when none has; the
    [assert False] after it is never reached. *)
Theorem C6_flux_raises (df_with_fluxes : outcome (list (string * series)))
    (written : list artefact) :
  exists e, flux df_with_fluxes written = (written, Err e) /\
    forall df, df_with_fluxes = Ok df -> lookup_col df "date" <> None ->
      e = match flux_plot_vars df with
          | [] => "ValueError: Number of rows must be a positive integer"%string
          | _ :: _ => "KeyError: 'date'"%string
          end.
Proof.
  destruct df_with_fluxes as [df|e].
  2:{ exists e; split; [reflexivity | intros df H; discriminate]. }
  unfold flux, fbind, lift.
  destruct (lookup_col df "date") as [dates|] eqn:Hd.
  2:{ eexists; split; [reflexivity | intros df' H Hn; injection H as <-; contradiction]. }
  unfold plot_daily_fluxes, fbind, lift.
  rewrite existsb_date_filter, flux_plot_vars_filter, lookup_col_date_filter.
  simpl String.eqb.
  destruct (flux_plot_vars df) as [|v vs] eqn:Hv.
  - eexists; split; [reflexivity|].
    intros df' H _; injection H as <-; rewrite Hv; reflexivity.
  - cbv zeta.
    match goal with
    | |- context [Nat.eqb ?n 0] =>
        assert (Hr : Nat.eqb n 0 = false)
          by (apply Nat.eqb_neq; simpl length; intro H;
              rewrite Nat.div_small_iff in H by lia; lia);
        rewrite Hr
    end.
    eexists; split; [reflexivity|].
    intros df' H _; injection H as <-; rewrite Hv; reflexivity.
Qed.

(** * Monthly and annual totals (claim C9) *)

Lemma In_zrange x lo n : In x (zrange lo n) <-> (lo <= x < lo + Z.of_nat n)%Z.
Proof.
  revert lo; induction n as [|n IH]; intro lo; simpl; [lia|].
  rewrite IH; lia.
Qed.

Lemma fold_min_spec (t : list Z) a :
  (fold_left Z.min t a <= a)%Z /\ (forall x, In x t -> fold_left Z.min t a <= x)%Z /\
  (fold_left Z.min t a = a \/ In (fold_left Z.min t a) t).
Proof.
  revert a; induction t as [|y t IH]; intro a; simpl; [split; [lia|split; [tauto | left; reflexivity]]|].
  destruct (IH (Z.min a y)) as [H1 [H2 H3]]; split; [lia|split].
  - intros x [<-|Hx]; [lia | apply H2, Hx].
  - destruct H3 as [H3|H3]; [|right; right; exact H3].
    rewrite H3; destruct (Z.min_spec a y) as [[_ ->]|[_ ->]]; [left | right; left]; reflexivity.
Qed.

Lemma fold_max_spec (t : list Z) a :
  (a <= fold_left Z.max t a)%Z /\ (forall x, In x t -> x <= fold_left Z.max t a)%Z /\
  (fold_left Z.max t a = a \/ In (fold_left Z.max t a) t).
Proof.
  revert a; induction t as [|y t IH]; intro a; simpl; [split; [lia|split; [tauto | left; reflexivity]]|].
  destruct (IH (Z.max a y)) as [H1 [H2 H3]]; split; [lia|split].
  - intros x [<-|Hx]; [lia | apply H2, Hx].
  - destruct H3 as [H3|H3]; [|right; right; exact H3].
    rewrite H3; destruct (Z.max_spec a y) as [[_ ->]|[_ ->]]; [right; left | left]; reflexivity.
Qed.

Lemma zmin_list_spec (l : list Z) :
  l <> [] -> In (zmin_list l) l /\ (forall x, In x l -> zmin_list l <= x)%Z.
Proof.
  destruct l as [|a t]; [congruence|]; intros _; simpl.
  destruct (fold_min_spec t a) as [H1 [H2 H3]]; split.
  - destruct H3 as [->|H3]; [left; reflexivity | right; exact H3].
  - intros x [<-|Hx]; [exact H1 | apply H2, Hx].
Qed.

Lemma zmax_list_spec (l : list Z) :
  l <> [] -> In (zmax_list l) l /\ (forall x, In x l -> x <= zmax_list l)%Z.
Proof.
  destruct l as [|a t]; [congruence|]; intros _; simpl.
  destruct (fold_max_spec t a) as [H1 [H2 H3]]; split.
  - destruct H3 as [->|H3]; [left; reflexivity | right; exact H3].
  - intros x [<-|Hx]; [exact H1 | apply H2, Hx].
Qed.

Lemma In_date_range x lo hi : In x (date_range lo hi) <-> (lo <= x <= hi)%Z.
Proof. unfold date_range; rewrite In_zrange; lia. Qed.

Lemma resample_sum_spec key mc rows k v :
  In (k, v) (resample_sum key mc rows) ->
  v = sum_min_count mc (map f_value (filter (fun r => Z.eqb (key r) k) rows)).
Proof.
  unfold resample_sum; destruct rows as [|r0 rows]; [contradiction|].
  rewrite in_map_iff; intros [k' [Hk _]]; injection Hk; intros <- <-; reflexivity.
Qed.

Lemma resample_sum_covers key mc rows r :
  In r rows -> exists v, In (key r, v) (resample_sum key mc rows).
Proof.
  intro Hr; unfold resample_sum; destruct rows as [|r0 rows']; [contradiction|].
  set (l := r0 :: rows'); fold l in Hr.
  assert (Hne : map key l <> []) by discriminate.
  destruct (zmin_list_spec _ Hne) as [_ Hmin]; destruct (zmax_list_spec _ Hne) as [_ Hmax].
  assert (Hin : In (key r) (map key l)) by (apply in_map, Hr).
  eexists; apply in_map_iff; exists (key r); split; [reflexivity|].
  apply In_date_range; split; [apply Hmin, Hin | apply Hmax, Hin].
Qed.

Lemma sum_min_count_spec mc vals v :
  v = sum_min_count mc vals ->
  (v = None <-> length (dropna vals) < mc) /\ (forall x, v = Some x -> x = Qsum (dropna vals)).
Proof.
  unfold sum_min_count; intros ->.
  destruct (length (dropna vals) <? mc) eqn:E.
  - apply Nat.ltb_lt in E; split; [tauto | discriminate].
  - apply Nat.ltb_ge in E; split; [split; [discriminate | lia] | intros x Hx; injection Hx; auto].
Qed.

(** C9: every month from the first to the last month of the daily table has
    a monthly total, and every year an annual one; a total is missing exactly
    when fewer than 25 (monthly) or 350 (annual) daily values of its period
    are valid, and otherwise it is the sum of those values. *)
Theorem C9_min_count_totals (rows : list flux_row) :
  (forall r, In r rows -> exists v, In (month_key r, v) (monthly_flux rows)) /\
  (forall r, In r rows -> exists v, In (f_year r, v) (annual_flux rows)) /\
  (forall k v, In (k, v) (monthly_flux rows) ->
     let vals := dropna (map f_value (filter (fun r => Z.eqb (month_key r) k) rows)) in
     (v = None <-> length vals < 25) /\ (forall x, v = Some x -> x = Qsum vals)) /\
  (forall k v, In (k, v) (annual_flux rows) ->
     let vals := dropna (map f_value (filter (fun r => Z.eqb (f_year r) k) rows)) in
     (v = None <-> length vals < 350) /\ (forall x, v = Some x -> x = Qsum vals)).
Proof.
  split; [|split; [|split]].
  - intros r Hr; apply resample_sum_covers, Hr.
  - intros r Hr; apply resample_sum_covers, Hr.
  - intros k v H; apply sum_min_count_spec, (resample_sum_spec month_key 25 rows k v H).
  - intros k v H; apply sum_min_count_spec, (resample_sum_spec f_year 350 rows k v H).
Qed.

(** * Daily calendar (claim C8) *)

Lemma zrange_sorted lo n : StronglySorted Z.lt (zrange lo n).
Proof.
  revert lo; induction n as [|n IH]; intro lo; simpl; constructor; [apply IH|].
  apply Forall_forall; intros x Hx; apply In_zrange in Hx; lia.
Qed.

Lemma In_insert_uniq x y l : In x (insert_uniq y l) <-> x = y \/ In x l.
Proof.
  induction l as [|z l IH]; simpl; [intuition (subst; auto)|].
  destruct (y <? z)%Z eqn:E1; [simpl; intuition (subst; auto)|].
  destruct (y =? z)%Z eqn:E2; [apply Z.eqb_eq in E2; subst; simpl; intuition (subst; auto)|].
  simpl; rewrite IH; intuition (subst; auto).
Qed.

Lemma insert_uniq_sorted y l : StronglySorted Z.lt l -> StronglySorted Z.lt (insert_uniq y l).
Proof.
  induction l as [|z l IH]; simpl; intro Hs; [repeat constructor|].
  inversion Hs as [|? ? Hl Hz]; subst.
  destruct (y <? z)%Z eqn:E1.
  - apply Z.ltb_lt in E1; constructor; [exact Hs|].
    constructor; [exact E1|]; eapply Forall_impl; [|exact Hz]; simpl; intros; lia.
  - destruct (y =? z)%Z eqn:E2; [exact Hs|].
    apply Z.ltb_ge in E1; apply Z.eqb_neq in E2.
    constructor; [apply IH, Hl|].
    apply Forall_forall; intros x Hx; apply In_insert_uniq in Hx as [->|Hx]; [lia|].
    rewrite Forall_forall in Hz; apply Hz, Hx.
Qed.

Lemma In_sorted_keys x l : In x (sorted_keys l) <-> In x l.
Proof.
  induction l as [|y l IH]; simpl; [tauto|].
  rewrite In_insert_uniq, IH; intuition.
Qed.

Lemma sorted_keys_sorted l : StronglySorted Z.lt (sorted_keys l).
Proof. induction l; simpl; [constructor | apply insert_uniq_sorted; assumption]. Qed.

Lemma strongly_sorted_ext (l1 l2 : list Z) :
  StronglySorted Z.lt l1 -> StronglySorted Z.lt l2 ->
  (forall x, In x l1 <-> In x l2) -> l1 = l2.
Proof.
  revert l2; induction l1 as [|a l1 IH]; intros [|b l2] H1 H2 Hx.
  - reflexivity.
  - exfalso; apply (proj2 (Hx b)); left; reflexivity.
  - exfalso; apply (proj1 (Hx a)); left; reflexivity.
  - inversion H1 as [|? ? S1 F1]; inversion H2 as [|? ? S2 F2]; subst.
    rewrite Forall_forall in F1, F2.
    assert (a = b).
    { destruct (proj1 (Hx a) (or_introl eq_refl)) as [|Ha]; [auto|].
      destruct (proj2 (Hx b) (or_introl eq_refl)) as [|Hb]; [auto|].
      specialize (F2 _ Ha); specialize (F1 _ Hb); lia. }
    subst; f_equal; apply IH; [exact S1 | exact S2|].
    intro x; split; intro Hin.
    + destruct (proj1 (Hx x) (or_intror Hin)) as [<-|H]; [|exact H].
      specialize (F1 _ Hin); lia.
    + destruct (proj2 (Hx x) (or_intror Hin)) as [<-|H]; [|exact H].
      specialize (F2 _ Hin); lia.
Qed.

Lemma strongly_sorted_nodup (l : list Z) : StronglySorted Z.lt l -> NoDup l.
Proof.
  induction 1 as [|a l _ IH F]; constructor; [|exact IH].
  rewrite Forall_forall in F; intro Ha; specialize (F _ Ha); lia.
Qed.

Lemma drop_duplicates_from_dates seen rows x :
  (In x (map date (drop_duplicates_from seen rows)) -> In x (map date rows)) /\
  (In x (map date rows) -> In x seen \/ In x (map date (drop_duplicates_from seen rows))).
Proof.
  revert seen; induction rows as [|r rows IH]; intro seen; simpl; [tauto|].
  destruct (existsb (Z.eqb (date r)) seen) eqn:E.
  - destruct (IH seen) as [IH1 IH2]; split; [intro H; right; apply IH1, H|].
    intros [<-|H]; [left | apply IH2, H].
    apply existsb_exists in E as [y [Hy Hey]]; apply Z.eqb_eq in Hey; subst; exact Hy.
  - destruct (IH (date r :: seen)) as [IH1 IH2]; simpl; split.
    + intros [<-|H]; [left; reflexivity | right; apply IH1, H].
    + intros [<-|H]; [right; left; reflexivity|].
      destruct (IH2 H) as [[<-|H']|H']; [right; left; reflexivity | left; exact H' | right; right; exact H'].
Qed.

Lemma first_value_drop_duplicates_from seen rows d :
  ~ In d seen -> first_value (rows_on d (drop_duplicates_from seen rows)) = first_value (rows_on d rows).
Proof.
  revert seen; induction rows as [|r rows IH]; intros seen Hd; simpl; [reflexivity|].
  destruct (existsb (Z.eqb (date r)) seen) eqn:E.
  - assert (Hne : (date r =? d)%Z = false).
    { apply Z.eqb_neq; intro Heq; subst; apply Hd.
      apply existsb_exists in E as [y [Hy Hey]]; apply Z.eqb_eq in Hey; subst; exact Hy. }
    rewrite Hne; apply IH, Hd.
  - simpl; destruct (date r =? d)%Z eqn:E2; [reflexivity|].
    apply IH; simpl; intros [H|H]; [apply Z.eqb_neq in E2; congruence | exact (Hd H)].
Qed.

Lemma flat_map_single (h : Z -> list (Z * option Q * option Q)) (l : list Z) k :
  NoDup l -> In k l ->
  flat_map (fun d => if (d =? k)%Z then h d else []) l = h k.
Proof.
  induction l as [|a l IH]; intros Hnd Hk; [contradiction|].
  inversion Hnd as [|? ? Ha Hl]; subst; simpl.
  destruct Hk as [->|Hk].
  - rewrite Z.eqb_refl.
    assert (Hz : flat_map (fun d => if (d =? k)%Z then h d else []) l = []).
    { clear IH Hl Hnd; induction l as [|b l IHl]; simpl; [reflexivity|].
      destruct (b =? k)%Z eqn:E; [apply Z.eqb_eq in E; subst; exfalso; apply Ha; left; reflexivity|].
      apply IHl; intro H; apply Ha; right; exact H. }
    rewrite Hz, app_nil_r; reflexivity.
  - destruct (a =? k)%Z eqn:E; [apply Z.eqb_eq in E; subst; contradiction|].
    apply IH; assumption.
Qed.

Lemma filter_flat_map_dates (f : Z * option Q -> list (Z * option Q * option Q)) l k :
  (forall dq x, In x (f dq) -> fst (fst x) = fst dq) ->
  filter (fun x => Z.eqb (fst (fst x)) k) (flat_map f l) =
  flat_map (fun dq => if (fst dq =? k)%Z then f dq else []) l.
Proof.
  intro Hf; induction l as [|dq l IH]; simpl; [reflexivity|].
  rewrite filter_app, IH; f_equal.
  destruct (fst dq =? k)%Z eqn:E.
  - apply Z.eqb_eq in E.
    rewrite (filter_ext_in _ (fun _ => true)); [apply filter_true|].
    intros x Hx; rewrite (Hf _ _ Hx), E; apply Z.eqb_refl.
  - rewrite (filter_ext_in _ (fun _ => false)); [apply filter_false|].
    intros x Hx; rewrite (Hf _ _ Hx); exact E.
Qed.

Lemma dropna_repeat_some (v : Q) n : dropna (repeat (Some v) n) = repeat v n.
Proof. induction n; simpl; [reflexivity | rewrite IHn; reflexivity]. Qed.

Lemma dropna_repeat_none n : dropna (repeat None n) = [].
Proof. induction n; simpl; auto. Qed.

Lemma Qsum_repeat (v : Q) n : (Qsum (repeat v n) == Qofnat n * v)%Q.
Proof.
  induction n as [|n IH]; simpl; [reflexivity|].
  unfold Qsum in *; simpl; rewrite IH; unfold Qofnat.
  rewrite Nat2Z.inj_succ, <- Z.add_1_l, inject_Z_plus; ring.
Qed.

Lemma mean_skipna_repeat (v : option Q) n :
  opt_Qeq (mean_skipna (repeat v (S n))) v.
Proof.
  destruct v as [x|]; unfold mean_skipna.
  - rewrite dropna_repeat_some.
    change ((Qsum (repeat x (S n)) / Qofnat (length (repeat x (S n)))) == x)%Q.
    rewrite Qsum_repeat, repeat_length.
    assert (Hpos : ~ (Qofnat (S n) == 0)%Q).
    { unfold Qofnat, Qeq; simpl; lia. }
    field; exact Hpos.
  - rewrite dropna_repeat_none; exact I.
Qed.

(** C8: for a station with at least one discharge row, the aligned frame
    has exactly one row for each day from the earliest to the latest
    discharge date of the station, in strictly increasing order without
    duplicates; the chemistry value of a day is the mean of that day's
    samples, and the discharge that of the first discharge row of the day. *)
Theorem C8_daily_calendar (wc_df q_df : list obs_row) (st : string) :
  let qs := filter (fun r => String.eqb (station r) st) q_df in
  let wc := filter (fun r => String.eqb (station r) st) wc_df in
  qs <> [] ->
  exists out lo hi,
    merge_daily_wc_q wc_df q_df st = Ok out /\
    In lo (map date qs) /\ In hi (map date qs) /\
    (forall r, In r qs -> lo <= date r <= hi)%Z /\
    map d_date out = date_range lo hi /\
    StronglySorted Z.lt (map d_date out) /\ NoDup (map d_date out) /\
    (forall o, In o out ->
       d_chem o = mean_skipna (map value (rows_on (d_date o) wc)) /\
       opt_Qeq (d_discharge o) (first_value (rows_on (d_date o) qs))).
Proof.
  intros qs wc Hne.
  unfold merge_daily_wc_q; cbv zeta.
  change (filter (fun r => String.eqb (station r) st) q_df) with qs.
  change (filter (fun r => String.eqb (station r) st) wc_df) with wc.
  clearbody qs wc.
  destruct qs as [|q0 qt] eqn:Eqs; [congruence|]; rewrite <- Eqs.
  set (q' := drop_duplicates qs).
  set (lo := zmin_list (map date q')).
  set (hi := zmax_list (map date q')).
  set (g := fun d => (d, first_value (rows_on d q'))).
  set (f := fun dq : Z * option Q => match rows_on (fst dq) wc with
                      | [] => [(fst dq, snd dq, None)]
                      | ms => map (fun r => (fst dq, snd dq, value r)) ms
                      end).
  assert (Hqd : forall x, In x (map date q') <-> In x (map date qs)).
  { intro x; destruct (drop_duplicates_from_dates [] qs x) as [H1 H2]; split; [exact H1|].
    intro H; destruct (H2 H) as [[]|H']; exact H'. }
  assert (Hne' : map date q' <> []).
  { intro H; assert (Hin : In (date q0) (map date q')).
    { apply Hqd; rewrite Eqs; left; reflexivity. }
    rewrite H in Hin; contradiction. }
  destruct (zmin_list_spec _ Hne') as [Hlo Hlo'].
  destruct (zmax_list_spec _ Hne') as [Hhi Hhi'].
  fold lo in Hlo, Hlo'; fold hi in Hhi, Hhi'.
  assert (Hf : forall dq y, In y (f dq) -> fst (fst y) = fst dq).
  { intros dq y; unfold f; destruct (rows_on (fst dq) wc) as [|r rs].
    - intros [<-|[]]; reflexivity.
    - rewrite in_map_iff; intros [r' [<- _]]; reflexivity. }
  assert (Hm2 : forall x, In x (map (fun x => fst (fst x)) (flat_map f (map g (date_range lo hi))))
                          <-> In x (date_range lo hi)).
  { intro x; rewrite in_map_iff; split.
    - intros [y [<- Hy]]; apply in_flat_map in Hy as [dq [Hdq Hy]].
      apply in_map_iff in Hdq as [d [<- Hd]].
      rewrite (Hf _ _ Hy); exact Hd.
    - intro Hx; exists (match f (g x) with y :: _ => y | [] => (x, None, None) end); split.
      + unfold f, g; simpl; destruct (rows_on x wc); reflexivity.
      + apply in_flat_map; exists (g x); split; [apply in_map, Hx|].
        unfold f, g; simpl; destruct (rows_on x wc); simpl; auto. }
  assert (Hkeys : sorted_keys (map (fun x => fst (fst x)) (flat_map f (map g (date_range lo hi))))
                  = date_range lo hi).
  { apply strongly_sorted_ext; [apply sorted_keys_sorted | apply zrange_sorted|].
    intro x; rewrite In_sorted_keys; apply Hm2. }
  eexists _, lo, hi; split; [reflexivity|].
  rewrite map_map; simpl; rewrite map_id, Hkeys.
  split; [apply Hqd, Hlo|]; split; [apply Hqd, Hhi|]; split.
  { intros r Hr; assert (Hin : In (date r) (map date q')) by (apply Hqd, in_map, Hr).
    split; [apply Hlo', Hin | apply Hhi', Hin]. }
  split; [reflexivity|]; split; [apply zrange_sorted|]; split.
  { apply strongly_sorted_nodup, zrange_sorted. }
  intros o Ho; apply in_map_iff in Ho as [k [<- Hk]]; simpl.
  rewrite filter_flat_map_dates by exact Hf.
  rewrite flat_map_concat_map, map_map, <- flat_map_concat_map.
  assert (Hnd : NoDup (date_range lo hi)) by apply strongly_sorted_nodup, zrange_sorted.
  change (fun x : Z => if (fst (g x) =? k)%Z then f (g x) else [])
    with (fun d : Z => if (d =? k)%Z then f (g d) else []).
  rewrite (flat_map_single (fun d => f (g d)) _ k Hnd Hk).
  unfold f, g; simpl.
  unfold q', drop_duplicates; rewrite (first_value_drop_duplicates_from [] qs k) by (intros []).
  destruct (rows_on k wc) as [|r rs]; simpl.
  - split; [reflexivity|]. apply (mean_skipna_repeat _ 0).
  - rewrite !map_map; simpl; split; [reflexivity|].
    set (c := first_value (rows_on k qs)).
    replace (c :: map (fun _ : obs_row => c) rs) with (repeat c (S (length rs)))
      by (simpl; f_equal; clear; induction rs; simpl; congruence).
    apply mean_skipna_repeat.
Qed.

Lemma C8_daily_calendar_witness :
  filter (fun r => String.eqb (station r) "A") c8_q <> [] /\
  exists out lo hi,
    merge_daily_wc_q c8_wc c8_q "A" = Ok out /\
    In lo (map date (filter (fun r => String.eqb (station r) "A") c8_q)) /\
    In hi (map date (filter (fun r => String.eqb (station r) "A") c8_q)) /\
    (forall r, In r (filter (fun r => String.eqb (station r) "A") c8_q) -> lo <= date r <= hi)%Z /\
    map d_date out = date_range lo hi /\
    StronglySorted Z.lt (map d_date out) /\ NoDup (map d_date out) /\
    (forall o, In o out ->
       d_chem o = mean_skipna (map value (rows_on (d_date o)
                                 (filter (fun r => String.eqb (station r) "A") c8_wc))) /\
       opt_Qeq (d_discharge o)
         (first_value (rows_on (d_date o) (filter (fun r => String.eqb (station r) "A") c8_q)))).
Proof.
  assert (Hne : filter (fun r => String.eqb (station r) "A") c8_q <> [])
    by (intro H; vm_compute in H; discriminate).
  split; [exact Hne|].
  exact (C8_daily_calendar c8_wc c8_q "A" Hne).
Defined.

(** * Further properties of the interpolation and selection code *)

(** ** [interpolate_with_gap_limit] *)


Lemma last_valid_before_run xs a va i :
  nth a xs None = Some va -> a < i -> (forall j, a < j < i -> nth j xs None = None) ->
  last_valid_before xs i = Some (a, va).
Proof.
  induction i as [|i IH]; intros Ha Hi Hr; [lia|]; simpl.
  destruct (Nat.eq_dec i a) as [->|Hne]; [rewrite Ha; reflexivity|].
  rewrite Hr by lia; apply IH; auto; [lia|]; intros j Hj; apply Hr; lia.
Qed.

Lemma nan_run_upto_run xs a va i :
  nth a xs None = Some va -> a < i -> (forall j, a < j < i -> nth j xs None = None) ->
  nan_run_upto xs i = i - S a.
Proof.
  induction i as [|i IH]; intros Ha Hi Hr; [lia|]; simpl.
  destruct (Nat.eq_dec i a) as [->|Hne]; [rewrite Ha; lia|].
  rewrite Hr by lia; rewrite IH; auto; [lia | lia |]; intros j Hj; apply Hr; lia.
Qed.



(** X2: In a run of missing days that follows an observation [va] on day [a],
    day [i] of the run is filled exactly when [i - a <= max_gap]: with the
    linear interpolation towards the next observation, or with [va] itself
    when no observation follows (the series is extended flat). *)
Theorem interpolate_with_gap_limit_run (xs : series) (max_gap : Z) (a i : nat) (va : Q) :
  (0 < max_gap)%Z -> nth a xs None = Some va -> a < i < length xs ->
  (forall j, a < j <= i -> nth j xs None = None) ->
  exists ys, interpolate_with_gap_limit xs max_gap = Some ys /\
    nth i ys None =
      if Z.to_nat max_gap <? i - a then None
      else match first_valid_after xs i with
           | None => Some va
           | Some (b, vb) => Some (va + (vb - va) * (Qofnat (i - a) / Qofnat (b - a)))%Q
           end.
Proof.
  intros Hg Ha Hi Hr.
  unfold interpolate_with_gap_limit.
  replace (max_gap <=? 0)%Z with false by (symmetry; apply Z.leb_gt; lia).
  eexists; split; [reflexivity|].
  rewrite nth_interpolate_linear by lia.
  unfold interp_at; rewrite (Hr i) by lia.
  rewrite (nan_run_upto_run xs a va (S i)) by (auto; try lia; intros j Hj; apply Hr; lia).
  replace (S i - S a) with (i - a) by lia.
  destruct (Z.to_nat max_gap <? i - a); [reflexivity|].
  unfold np_interp_at.
  rewrite (last_valid_before_run xs a va i) by (auto; try lia; intros j Hj; apply Hr; lia).
  reflexivity.
Qed.

Lemma interpolate_with_gap_limit_run_witness :
  exists ys, interpolate_with_gap_limit [Some 0; None; None; None; Some 8]%Q 2 = Some ys /\
    nth 2 ys None =
      if Z.to_nat 2 <? 2 - 0 then None
      else match first_valid_after [Some 0; None; None; None; Some 8]%Q 2 with
           | None => Some 0%Q
           | Some (b, vb) => Some (0 + (vb - 0) * (Qofnat (2 - 0) / Qofnat (b - 0)))%Q
           end.
Proof.
  apply (interpolate_with_gap_limit_run _ 2 0 2 0%Q); [lia | reflexivity | simpl; lia |].
  intros j Hj; destruct j as [|[|[|j]]]; simpl; try reflexivity; lia.
Defined.

(** ** Scoring, ranking and gap filling *)

Lemma in_scored_candidates_scored cfg cols y_obs s e sc :
  In sc (scored_candidates cfg cols y_obs s e) ->
  In (sc_suffix sc) (candidate_suffixes cfg) /\
  10 <= length (valid_pairs y_obs (sc_pred sc)) /\
  sc_r2 sc = r2_score (valid_pairs y_obs (sc_pred sc)).
Proof.
  unfold scored_candidates; rewrite in_flat_map; intros [sfx [Hsfx Hin]].
  unfold score_col in Hin.
  destruct (lookup_col cols sfx) as [col|]; [|contradiction].
  unfold score_candidate in Hin.
  destruct (length (valid_pairs y_obs (slice s e col)) <? 10) eqn:E; [contradiction|].
  destruct Hin as [<-|[]]; simpl; apply Nat.ltb_ge in E; auto.
Qed.

(** X7: The primary method chosen by the ranked selection is one of the
    configured candidate suffixes, has at least 10 days over the observed
    span on which both the observation and its prediction exist, its score
    is the R2 over those days, and that score reaches [r2_threshold]. *)
Theorem ranked_primary_scored (cfg : sel_cfg) (cols : list (string * series))
    (obs : series) (s e : nat) (m : scored) :
  ranked_primary cfg cols obs s e = Some m ->
  In (sc_suffix m) (candidate_suffixes cfg) /\
  10 <= length (valid_pairs (slice s e obs) (sc_pred m)) /\
  sc_r2 m = r2_score (valid_pairs (slice s e obs) (sc_pred m)) /\
  (r2_threshold cfg <= sc_r2 m)%Q.
Proof.
  unfold ranked_primary; intro H; apply find_some in H as [H _].
  apply (Permutation_in _ (Permutation_sym (sort_desc_perm _))) in H.
  unfold good_methods in H; apply filter_In in H as [H Hthr].
  destruct (in_scored_candidates_scored _ _ _ _ _ _ H) as [H1 [H2 H3]].
  repeat split; auto; apply Qle_bool_iff, Hthr.
Qed.

Lemma ranked_primary_scored_witness :
  ranked_primary default_sel_cfg c2_cols c2_obs 0 10 = Some (c2_scored "monthly_regres" c2_regres) /\
  In (sc_suffix (c2_scored "monthly_regres" c2_regres)) (candidate_suffixes default_sel_cfg) /\
  10 <= length (valid_pairs (slice 0 10 c2_obs) (sc_pred (c2_scored "monthly_regres" c2_regres))) /\
  sc_r2 (c2_scored "monthly_regres" c2_regres) =
    r2_score (valid_pairs (slice 0 10 c2_obs) (sc_pred (c2_scored "monthly_regres" c2_regres))) /\
  (r2_threshold default_sel_cfg <= sc_r2 (c2_scored "monthly_regres" c2_regres))%Q.
Proof.
  assert (H : ranked_primary default_sel_cfg c2_cols c2_obs 0 10
              = Some (c2_scored "monthly_regres" c2_regres)) by (vm_compute; reflexivity).
  split; [exact H|]; exact (ranked_primary_scored _ _ _ _ _ _ H).
Defined.

Lemma any_avail_spec sel d :
  any_avail sel d = true -> exists i, nth i sel None = None /\ nth i d None <> None.
Proof.
  revert d; induction sel as [|x sel IH]; intros [|y d]; [discriminate | discriminate | |].
  - destruct x; discriminate.
  - destruct x as [x|]; [|destruct y as [y|]]; simpl.
    + intro H; destruct (IH d H) as [i Hi]; exists (S i); exact Hi.
    + intros _; exists 0; simpl; split; [reflexivity | discriminate].
    + intro H; destruct (IH d H) as [i Hi]; exists (S i); exact Hi.
Qed.

Lemma sorted_head_max best rest :
  Sorted r2_ge (best :: rest) -> forall d, In d (best :: rest) -> (sc_r2 d <= sc_r2 best)%Q.
Proof.
  intros Hs d Hd.
  apply Sorted_StronglySorted in Hs; [|exact r2_ge_trans].
  inversion Hs as [|? ? _ Hf]; subst.
  destruct Hd as [<-|Hd]; [apply Qle_refl|].
  rewrite Forall_forall in Hf; exact (Hf d Hd).
Qed.

(** X8: When the gap-fill pass reports a donor, that donor survived the donor
    checks, has the highest R2 of all surviving donors, has a value on at
    least one missing day of the selected series, and the filled series is
    the selected series with the donor's values at its missing days. *)
Theorem gap_fill_pass_best_donor (cfg : sel_cfg) (cols : list (string * series))
    (y_obs : series) (s e : nat) (sel : series) (sfx : string) :
  snd (gap_fill_pass cfg cols y_obs s e sel) = Some sfx ->
  exists best,
    In best (donor_candidates cfg cols y_obs s e (1460 <=? longest_gap sel)) /\
    sc_suffix best = sfx /\
    (forall d, In d (donor_candidates cfg cols y_obs s e (1460 <=? longest_gap sel)) ->
       (sc_r2 d <= sc_r2 best)%Q) /\
    fst (gap_fill_pass cfg cols y_obs s e sel) = fill_missing sel (sc_pred best) /\
    exists i, nth i sel None = None /\ nth i (sc_pred best) None <> None.
Proof.
  unfold gap_fill_pass.
  destruct (existsb is_none sel); [|discriminate].
  pose proof (sort_desc_perm (donor_candidates cfg cols y_obs s e (1460 <=? longest_gap sel))) as Hp.
  pose proof (sort_desc_sorted (donor_candidates cfg cols y_obs s e (1460 <=? longest_gap sel))) as Hs.
  destruct (sort_desc _) as [|best rest]; [discriminate|].
  destruct (any_avail sel (sc_pred best)) eqn:Ea; [|discriminate].
  simpl; intro H; injection H as <-.
  exists best; split; [|split; [reflexivity|split; [|split; [reflexivity|]]]].
  - apply (Permutation_in _ (Permutation_sym Hp)); left; reflexivity.
  - intros d Hd; apply (sorted_head_max best rest Hs).
    apply (Permutation_in _ Hp), Hd.
  - apply any_avail_spec, Ea.
Qed.

Lemma gap_fill_pass_best_donor_witness :
  snd (gap_fill_pass default_sel_cfg c2_cols (slice 0 10 c2_obs) 0 10 (slice 0 10 c2_obs))
    = Some "annual_gam"%string /\
  exists best,
    In best (donor_candidates default_sel_cfg c2_cols (slice 0 10 c2_obs) 0 10
               (1460 <=? longest_gap (slice 0 10 c2_obs))) /\
    sc_suffix best = "annual_gam"%string /\
    (forall d, In d (donor_candidates default_sel_cfg c2_cols (slice 0 10 c2_obs) 0 10
                       (1460 <=? longest_gap (slice 0 10 c2_obs))) ->
       (sc_r2 d <= sc_r2 best)%Q) /\
    fst (gap_fill_pass default_sel_cfg c2_cols (slice 0 10 c2_obs) 0 10 (slice 0 10 c2_obs))
      = fill_missing (slice 0 10 c2_obs) (sc_pred best) /\
    exists i, nth i (slice 0 10 c2_obs) None = None /\ nth i (sc_pred best) None <> None.
Proof.
  assert (H : snd (gap_fill_pass default_sel_cfg c2_cols (slice 0 10 c2_obs) 0 10 (slice 0 10 c2_obs))
              = Some "annual_gam"%string) by (vm_compute; reflexivity).
  split; [exact H|]; exact (gap_fill_pass_best_donor _ _ _ _ _ _ _ H).
Defined.

(** X11: merge_daily_river_data: without discharge rows the function raises;
    otherwise the frame has one row for each day from the earliest to the
    latest discharge date, in increasing order, taking the rows of every
    station: the chemistry value of a day is the mean of all samples of
    that date and the discharge that of the first discharge row of the
    date, whatever the [station_name] argument. *)
Theorem merge_daily_river_data_calendar (wc_df q_df : list obs_row) (st : string) :
  (q_df = [] -> exists e, merge_daily_river_data wc_df q_df st = Err e) /\
  (q_df <> [] ->
   exists out lo hi,
     merge_daily_river_data wc_df q_df st = Ok out /\
     In lo (map date q_df) /\ In hi (map date q_df) /\
     (forall r, In r q_df -> lo <= date r <= hi)%Z /\
     map d_date out = date_range lo hi /\
     StronglySorted Z.lt (map d_date out) /\ NoDup (map d_date out) /\
     (forall o, In o out ->
        d_chem o = mean_skipna (map value (rows_on (d_date o) wc_df)) /\
        opt_Qeq (d_discharge o) (first_value (rows_on (d_date o) q_df)))).
Proof.
  split; [intros ->; eexists; reflexivity|].
  intro Hne.
  unfold merge_daily_river_data; cbv zeta.
  set (q' := drop_duplicates q_df).
  assert (Hqd : forall x, In x (map date q') <-> In x (map date q_df)).
  { intro x; destruct (drop_duplicates_from_dates [] q_df x) as [H1 H2]; split; [exact H1|].
    intro H; destruct (H2 H) as [[]|H']; exact H'. }
  assert (Hne' : map date q' <> []).
  { destruct q_df as [|q0 qt]; [congruence|].
    intro H; assert (Hin : In (date q0) (map date q')) by (apply Hqd; left; reflexivity).
    rewrite H in Hin; contradiction. }
  assert (Eq' : exists q0 qt, q' = q0 :: qt)
    by (destruct q' as [|q0 qt]; [contradiction Hne'; reflexivity | eauto]).
  destruct Eq' as [q0 [qt Eq']].
  set (lo := zmin_list (map date q')).
  set (hi := zmax_list (map date q')).
  set (g := fun d => (d, first_value (rows_on d q'))).
  set (f := fun dq : Z * option Q => match rows_on (fst dq) wc_df with
                      | [] => [(fst dq, snd dq, None)]
                      | ms => map (fun r => (fst dq, snd dq, value r)) ms
                      end).
  destruct (zmin_list_spec _ Hne') as [Hlo Hlo'].
  destruct (zmax_list_spec _ Hne') as [Hhi Hhi'].
  fold lo in Hlo, Hlo'; fold hi in Hhi, Hhi'.
  assert (Hf : forall dq y, In y (f dq) -> fst (fst y) = fst dq).
  { intros dq y; unfold f; destruct (rows_on (fst dq) wc_df) as [|r rs].
    - intros [<-|[]]; reflexivity.
    - rewrite in_map_iff; intros [r' [<- _]]; reflexivity. }
  assert (Hm2 : forall x, In x (map (fun x => fst (fst x)) (flat_map f (map g (date_range lo hi))))
                          <-> In x (date_range lo hi)).
  { intro x; rewrite in_map_iff; split.
    - intros [y [<- Hy]]; apply in_flat_map in Hy as [dq [Hdq Hy]].
      apply in_map_iff in Hdq as [d [<- Hd]].
      rewrite (Hf _ _ Hy); exact Hd.
    - intro Hx; exists (match f (g x) with y :: _ => y | [] => (x, None, None) end); split.
      + unfold f, g; simpl; destruct (rows_on x wc_df); reflexivity.
      + apply in_flat_map; exists (g x); split; [apply in_map, Hx|].
        unfold f, g; simpl; destruct (rows_on x wc_df); simpl; auto. }
  assert (Hkeys : sorted_keys (map (fun x => fst (fst x)) (flat_map f (map g (date_range lo hi))))
                  = date_range lo hi).
  { apply strongly_sorted_ext; [apply sorted_keys_sorted | apply zrange_sorted|].
    intro x; rewrite In_sorted_keys; apply Hm2. }
  eexists _, lo, hi; split; [rewrite Eq' at 1; reflexivity|].
  rewrite map_map; simpl; rewrite map_id, Hkeys.
  split; [apply Hqd, Hlo|]; split; [apply Hqd, Hhi|]; split.
  { intros r Hr; assert (Hin : In (date r) (map date q')) by (apply Hqd, in_map, Hr).
    split; [apply Hlo', Hin | apply Hhi', Hin]. }
  split; [reflexivity|]; split; [apply zrange_sorted|]; split.
  { apply strongly_sorted_nodup, zrange_sorted. }
  intros o Ho; apply in_map_iff in Ho as [k [<- Hk]]; simpl.
  rewrite filter_flat_map_dates by exact Hf.
  rewrite flat_map_concat_map, map_map, <- flat_map_concat_map.
  assert (Hnd : NoDup (date_range lo hi)) by apply strongly_sorted_nodup, zrange_sorted.
  change (fun x : Z => if (fst (g x) =? k)%Z then f (g x) else [])
    with (fun d : Z => if (d =? k)%Z then f (g d) else []).
  rewrite (flat_map_single (fun d => f (g d)) _ k Hnd Hk).
  unfold f, g; simpl.
  unfold q', drop_duplicates; rewrite (first_value_drop_duplicates_from [] q_df k) by (intros []).
  destruct (rows_on k wc_df) as [|r rs]; simpl.
  - split; [reflexivity|]. apply (mean_skipna_repeat _ 0).
  - rewrite !map_map; simpl; split; [reflexivity|].
    set (c := first_value (rows_on k q_df)).
    replace (c :: map (fun _ : obs_row => c) rs) with (repeat c (S (length rs)))
      by (simpl; f_equal; clear; induction rs; simpl; congruence).
    apply mean_skipna_repeat.
Qed.

Lemma lookup_col_app (l1 l2 : list (string * series)) x :
  lookup_col (l1 ++ l2) x = match lookup_col l1 x with Some c => Some c | None => lookup_col l2 x end.
Proof.
  unfold lookup_col; induction l1 as [|[n c] t IH]; simpl;
    [destruct (find _ l2); reflexivity | destruct (String.eqb n x); auto].
Qed.

Lemma existsb_eqb_false (x : string) (l : list string) :
  existsb (String.eqb x) l = false <-> ~ In x l.
Proof.
  split.
  - intros H Hin; assert (H' : existsb (String.eqb x) l = true)
      by (apply existsb_exists; exists x; split; [exact Hin | apply String.eqb_refl]).
    congruence.
  - intro Hn; destruct (existsb (String.eqb x) l) eqn:E; [|reflexivity].
    apply existsb_exists in E as [y [Hy Exy]]; apply String.eqb_eq in Exy; subst y.
    contradiction.
Qed.

Lemma lookup_col_flux_entries pum dc kc qd df var :
  ~ In var kc -> var <> dc ->
  lookup_col (flat_map (flux_entry pum dc kc qd) df) var =
  match lookup_unit pum var with
  | Some u => match conc_conversion u with
              | Some conv => option_map (fun c => flux_of conv c qd) (lookup_col df var)
              | None => None
              end
  | None => None
  end.
Proof.
  intros Hk Hd; apply existsb_eqb_false in Hk.
  assert (Hd' : String.eqb var dc = false) by (apply String.eqb_neq; exact Hd).
  induction df as [|[v c] t IH]; simpl.
  - destruct (lookup_unit pum var) as [u|]; [destruct (conc_conversion u)|]; reflexivity.
  - rewrite lookup_col_app, IH.
    unfold lookup_col at 2; simpl.
    destruct (String.eqb v var) eqn:Ev.
    + apply String.eqb_eq in Ev; subst v.
      unfold flux_entry; simpl; rewrite Hk, Hd'; simpl.
      destruct (lookup_unit pum var) as [u|]; [destruct (conc_conversion u)|]; simpl;
        try reflexivity.
      unfold lookup_col; simpl; rewrite String.eqb_refl; reflexivity.
    + fold (lookup_col t var).
      assert (Hn : lookup_col (flux_entry pum dc kc qd (v, c)) var = None).
      { unfold flux_entry; simpl.
        destruct (existsb (String.eqb v) kc || String.eqb v dc); [reflexivity|].
        destruct (lookup_unit pum v) as [u|]; [destruct (conc_conversion u)|]; try reflexivity.
        unfold lookup_col; simpl; rewrite Ev; reflexivity. }
      rewrite Hn; unfold lookup_col at 2; simpl; rewrite Ev; reflexivity.
Qed.

Lemma in_flux_entries pum dc kc qd df var :
  In var (map fst (flat_map (flux_entry pum dc kc qd) df)) <->
  In var (map fst df) /\ ~ In var kc /\ var <> dc /\
  exists u conv, lookup_unit pum var = Some u /\ conc_conversion u = Some conv.
Proof.
  rewrite in_map_iff; split.
  - intros [[v fl] [Hv Hin]]; simpl in Hv; subst v.
    apply in_flat_map in Hin as [[v c] [Hvc Hin]].
    unfold flux_entry in Hin; simpl in Hin.
    destruct (existsb (String.eqb v) kc || String.eqb v dc) eqn:Eb; [contradiction|].
    apply orb_false_iff in Eb as [Ek Ed].
    destruct (lookup_unit pum v) as [u|] eqn:Eu; [|contradiction].
    destruct (conc_conversion u) as [conv|] eqn:Ec; [|contradiction].
    destruct Hin as [Hin|[]]; injection Hin as <- _.
    split; [apply in_map_iff; exists (v, c); auto|].
    split; [apply existsb_eqb_false, Ek|].
    split; [apply String.eqb_neq, Ed|].
    exists u, conv; auto.
  - intros [Hin [Hk [Hd [u [conv [Eu Ec]]]]]].
    apply in_map_iff in Hin as [[v c] [Hv Hin]]; simpl in Hv; subst v.
    exists (var, flux_of conv c qd); split; [reflexivity|].
    apply in_flat_map; exists (var, c); split; [exact Hin|].
    unfold flux_entry; simpl.
    apply existsb_eqb_false in Hk; apply String.eqb_neq in Hd.
    rewrite Hk, Hd, Eu, Ec; left; reflexivity.
Qed.

Lemma keep_columns_ok df kc :
  (forall c, In c kc -> lookup_col df c <> None) ->
  exists kept, keep_columns df kc = Ok kept /\
    Forall2 (fun c kv => fst kv = c /\ lookup_col df c = Some (snd kv)) kc kept.
Proof.
  induction kc as [|c t IH]; intro H; simpl; [exists []; split; [reflexivity | constructor]|].
  destruct (lookup_col df c) as [col|] eqn:Ec; [|exfalso; apply (H c); [left|]; auto].
  destruct IH as [kept [Hk HF]]; [intros x Hx; apply H; right; exact Hx|].
  rewrite Hk; exists ((c, col) :: kept); split; [reflexivity|].
  constructor; [split; [reflexivity | exact Ec] | exact HF].
Qed.

Lemma keep_columns_err df kc :
  (exists c, In c kc /\ lookup_col df c = None) -> exists e, keep_columns df kc = Err e.
Proof.
  induction kc as [|c t IH]; simpl; [intros [x [[] _]]|].
  intros [x [[<-|Hx] Hn]].
  - rewrite Hn; eexists; reflexivity.
  - destruct (lookup_col df c); [|eexists; reflexivity].
    destruct IH as [e He]; [exists x; auto|]; rewrite He; eexists; reflexivity.
Qed.

Lemma keep_columns_names df kc kept :
  keep_columns df kc = Ok kept -> map fst kept = kc.
Proof.
  revert kept; induction kc as [|c t IH]; intros kept; simpl;
    [intro H; injection H as <-; reflexivity|].
  destruct (lookup_col df c); [|discriminate].
  destruct (keep_columns df t) eqn:E; [|discriminate].
  intro H; injection H as <-; simpl; f_equal; apply IH; reflexivity.
Qed.

Lemma keep_cols_dec df (kc : list string) :
  (forall c, In c kc -> lookup_col df c <> None) \/ (exists c, In c kc /\ lookup_col df c = None).
Proof.
  induction kc as [|c t IH]; [left; intros _ []|].
  destruct (lookup_col df c) as [col|] eqn:E; [|right; exists c; split; [left|]; auto].
  destruct IH as [H|[x [Hx Hn]]]; [left|right; exists x; split; [right|]; auto].
  intros x [<-|Hx]; [congruence | apply H, Hx].
Qed.

Lemma lookup_col_none (l : list (string * series)) x :
  ~ In x (map fst l) -> lookup_col l x = None.
Proof.
  unfold lookup_col; induction l as [|[n c] t IH]; simpl; [reflexivity|].
  intro H; destruct (String.eqb n x) eqn:E; [apply String.eqb_eq in E; tauto|].
  apply IH; tauto.
Qed.

Lemma nth_flux_of conv c qd i :
  nth i (flux_of conv c qd) None =
  match nth i c None, nth i qd None with
  | Some a, Some b => Some (conv a * b / 1000)%Q
  | _, _ => None
  end.
Proof.
  unfold flux_of; revert qd i; induction c as [|x c IH]; intros [|y qd] [|i]; simpl;
    try reflexivity; try (destruct x; reflexivity); try apply IH.
  destruct (nth i c None); reflexivity.
Qed.

Lemma length_flux_of conv c qd : length (flux_of conv c qd) = Nat.min (length c) (length qd).
Proof.
  unfold flux_of; revert qd; induction c as [|x c IH]; intros [|y qd]; simpl; auto.
Qed.

(** X12: compute_fluxes: the function raises exactly when the discharge column
    or one of the kept columns is absent. Otherwise its columns are the
    flux columns, then the kept columns copied from the input. There is one
    flux column for each input column that is neither kept nor the
    discharge, and whose unit is known and ends in a handled suffix. *)
Theorem compute_fluxes_columns df pum dc kc :
  ((exists e, compute_fluxes df pum dc kc = Err e) <->
   lookup_col df dc = None \/ exists c, In c kc /\ lookup_col df c = None) /\
  (forall out, compute_fluxes df pum dc kc = Ok out ->
   exists fl kept,
     out = fl ++ kept /\
     Forall2 (fun c kv => fst kv = c /\ lookup_col df c = Some (snd kv)) kc kept /\
     (forall var, In var (map fst fl) <->
        In var (map fst df) /\ ~ In var kc /\ var <> dc /\
        exists u conv, lookup_unit pum var = Some u /\ conc_conversion u = Some conv)).
Proof.
  split.
  - unfold compute_fluxes; split.
    + intros [e He].
      destruct (lookup_col df dc) as [q|]; [right|left; reflexivity].
      destruct (keep_cols_dec df kc) as [Hall|Hex]; [|exact Hex].
      destruct (keep_columns_ok df kc Hall) as [kept [Hk _]]; rewrite Hk in He; discriminate.
    + intros [Hd|Hex]; [rewrite Hd; eexists; reflexivity|].
      destruct (lookup_col df dc); [|eexists; reflexivity].
      destruct (keep_columns_err df kc Hex) as [e He]; rewrite He; eexists; reflexivity.
  - intros out; unfold compute_fluxes.
    destruct (lookup_col df dc) as [q|]; [|discriminate].
    destruct (keep_columns df kc) as [kept|e] eqn:Hk; [|discriminate].
    intro H; injection H as <-.
    eexists _, kept; split; [reflexivity|]; split.
    + destruct (keep_columns_ok df kc) as [kept' [Hk' HF]].
      * intros c Hc Hn; destruct (keep_columns_err df kc) as [e He]; [exists c; auto|congruence].
      * rewrite Hk in Hk'; injection Hk' as <-; exact HF.
    + intro var; apply in_flux_entries.
Qed.

Lemma flux_of_discharge conv (k : Q) c q :
  (forall a b, (conv a * (b * 86400) / 1000 == a * b * k)%Q) ->
  let fl := flux_of conv c (map (option_map (fun x => x * 86400)%Q) q) in
  length fl = Nat.min (length c) (length q) /\
  forall i, opt_Qeq (nth i fl None)
              (match nth i c None, nth i q None with
               | Some a, Some b => Some (a * b * k)%Q
               | _, _ => None
               end).
Proof.
  intros Hk fl; split.
  - unfold fl; rewrite length_flux_of, length_map; reflexivity.
  - intro i; unfold fl; rewrite nth_flux_of, nth_map_option_map.
    destruct (nth i c None) as [a|], (nth i q None) as [b|]; simpl; auto.
Qed.

(** X13: compute_fluxes: take a variable that has a column, is neither kept nor
    the discharge, and whose unit is in [param_unit_map]. Its flux on a
    day is concentration times discharge (in m3/s) times a factor: 54/625
    (that is 86400 / 10^6) for a unit ending in mg/l, mg/l C or mg Pt/l;
    54/625000 for µg/l, μg/l or µg/l P; 432/5 (86400 / 1000, raw values)
    for Abs/cm. The flux is missing on a day where either value is missing.
    A variable with any other unit gets no column. *)
Theorem compute_fluxes_values df pum dc kc out var c q u :
  compute_fluxes df pum dc kc = Ok out ->
  lookup_col df dc = Some q -> lookup_col df var = Some c ->
  ~ In var kc -> var <> dc -> lookup_unit pum var = Some u ->
  let flux_col k := exists fl,
      lookup_col out var = Some fl /\ length fl = Nat.min (length c) (length q) /\
      forall i, opt_Qeq (nth i fl None)
                  (match nth i c None, nth i q None with
                   | Some a, Some b => Some (a * b * k)%Q
                   | _, _ => None
                   end) in
  (ends_with_any ["mg/l"; "mg/l C"; "mg Pt/l"]%string u = true -> flux_col (54 # 625)%Q) /\
  (ends_with_any ["mg/l"; "mg/l C"; "mg Pt/l"]%string u = false ->
   ends_with_any ["µg/l"; "μg/l"; "µg/l P"]%string u = true -> flux_col (54 # 625000)%Q) /\
  (ends_with_any ["mg/l"; "mg/l C"; "mg Pt/l"]%string u = false ->
   ends_with_any ["µg/l"; "μg/l"; "µg/l P"]%string u = false ->
   ends_with "Abs/cm" u = true -> flux_col (432 # 5)%Q) /\
  (ends_with_any ["mg/l"; "mg/l C"; "mg Pt/l"]%string u = false ->
   ends_with_any ["µg/l"; "μg/l"; "µg/l P"]%string u = false ->
   ends_with "Abs/cm" u = false -> lookup_col out var = None).
Proof.
  intros Hok Hq Hc Hk Hd Hu flux_col.
  unfold compute_fluxes in Hok; rewrite Hq in Hok.
  destruct (keep_columns df kc) as [kept|e] eqn:Ek; [|discriminate].
  injection Hok as <-.
  assert (Hkept : lookup_col kept var = None)
    by (apply lookup_col_none; rewrite (keep_columns_names df kc kept Ek); exact Hk).
  unfold flux_col; clear flux_col.
  rewrite lookup_col_app, lookup_col_flux_entries by assumption.
  rewrite Hu, Hc; cbn [option_map]; unfold conc_conversion.
  repeat split; intros H1; try intros H2; try intros H3;
    rewrite ?H1, ?H2, ?H3; try exact Hkept;
    (eexists; split; [reflexivity|]; apply flux_of_discharge; intros; field).
Qed.

Lemma compute_fluxes_values_witness :
  let df := [("date"%string, [Some 1; Some 2]); ("discharge"%string, [Some 10; None]);
             ("TOC"%string, [Some 5; Some 3])]%Q in
  let pum := [("TOC", "mg/l C")]%string in
  let out := [("TOC"%string, [Some (5 * (1 # 1000) * (10 * 86400) / 1000); None]);
              ("date"%string, [Some 1; Some 2])]%Q in
  compute_fluxes df pum "discharge" ["date"%string] = Ok out /\
  lookup_col df "discharge" = Some [Some 10; None]%Q /\
  lookup_col df "TOC" = Some [Some 5; Some 3]%Q /\
  ~ In "TOC"%string ["date"%string] /\ "TOC"%string <> "discharge"%string /\
  lookup_unit pum "TOC" = Some "mg/l C"%string /\
  exists fl, lookup_col out "TOC" = Some fl /\ length fl = Nat.min 2 2 /\
    forall i, opt_Qeq (nth i fl None)
                (match nth i [Some 5; Some 3]%Q None, nth i [Some 10; None]%Q None with
                 | Some a, Some b => Some (a * b * (54 # 625))%Q
                 | _, _ => None
                 end).
Proof.
  intros df pum out.
  assert (H1 : compute_fluxes df pum "discharge" ["date"%string] = Ok out)
    by (vm_compute; reflexivity).
  assert (H2 : lookup_col df "discharge" = Some [Some 10; None]%Q) by (vm_compute; reflexivity).
  assert (H3 : lookup_col df "TOC" = Some [Some 5; Some 3]%Q) by (vm_compute; reflexivity).
  assert (H4 : ~ In "TOC"%string ["date"%string]) by (simpl; intros [H|[]]; discriminate).
  assert (H5 : "TOC"%string <> "discharge"%string) by discriminate.
  assert (H6 : lookup_unit pum "TOC" = Some "mg/l C"%string) by (vm_compute; reflexivity).
  assert (Hmg : ends_with_any ["mg/l"; "mg/l C"; "mg Pt/l"]%string "mg/l C" = true)
    by (vm_compute; reflexivity).
  split; [exact H1|]; split; [exact H2|]; split; [exact H3|]; split; [exact H4|];
    split; [exact H5|]; split; [exact H6|].
  exact (proj1 (compute_fluxes_values df pum "discharge" ["date"%string] out "TOC" _ _ _
                  H1 H2 H3 H4 H5 H6) Hmg).
Defined.

Lemma lookup_named_cons {A} (m n : string) (c : A) t :
  lookup_named ((m, c) :: t) n = if String.eqb m n then Some c else lookup_named t n.
Proof. unfold lookup_named; simpl; destruct (String.eqb m n); reflexivity. Qed.

Lemma lookup_named_set_col {A} (a n : string) (x : A) cols :
  lookup_named (set_col a x cols) n = if String.eqb a n then Some x else lookup_named cols n.
Proof.
  induction cols as [|[m c] t IH]; simpl.
  - rewrite lookup_named_cons; reflexivity.
  - destruct (String.eqb m a) eqn:Ema; rewrite !lookup_named_cons.
    + apply String.eqb_eq in Ema; subst m.
      destruct (String.eqb a n); reflexivity.
    + rewrite IH.
      destruct (String.eqb m n) eqn:Emn, (String.eqb a n) eqn:Ean; try reflexivity.
      apply String.eqb_eq in Emn, Ean; subst; rewrite String.eqb_refl in Ema; discriminate.
Qed.

Lemma lookup_asfreq_cols {A} ds cal (cols : list (string * list (option A))) n :
  lookup_named (asfreq_cols ds cal cols) n = option_map (fun c => asfreq ds c cal) (lookup_named cols n).
Proof.
  induction cols as [|[m c] t IH]; [reflexivity|].
  unfold asfreq_cols; simpl map; rewrite !lookup_named_cons; simpl.
  destruct (String.eqb m n); [reflexivity | exact IH].
Qed.

(** ** Forward and backward filling *)

Lemma length_ffill_from {A} (last : option A) l : length (ffill_from last l) = length l.
Proof.
  revert last; induction l as [|[x|] t IH]; intro last; simpl; rewrite ?IH; reflexivity.
Qed.

Lemma ffill_from_keeps {A} (last : option A) l i v :
  nth i l None = Some v -> nth i (ffill_from last l) None = Some v.
Proof.
  revert last i; induction l as [|[x|] t IH]; intros last [|i]; simpl; auto; discriminate.
Qed.

Lemma ffill_from_all_some {A} (last : option A) l :
  Forall (fun o => o <> None) l -> ffill_from last l = l.
Proof.
  intro H; revert last; induction H as [|[x|] t Hx _ IH]; intro last; simpl;
    [reflexivity | rewrite IH; reflexivity | congruence].
Qed.

Lemma ffill_from_all_none {A} l :
  Forall (fun o : option A => o = None) l -> ffill_from None l = l.
Proof.
  induction 1 as [|x t Hx _ IH]; simpl; [reflexivity|]; subst x; rewrite IH; reflexivity.
Qed.

Lemma ffill_from_some_total {A} (w : A) l :
  Forall (fun o => o <> None) (ffill_from (Some w) l).
Proof.
  revert w; induction l as [|[x|] t IH]; intro w; simpl; constructor; try discriminate; apply IH.
Qed.

Lemma ffill_from_last_some {A} (last : option A) l :
  l <> [] -> (last <> None \/ exists v, In (Some v) l) ->
  List.last (ffill_from last l) None <> None.
Proof.
  revert last; induction l as [|x t IH]; intros last Hne Hv; [congruence|].
  destruct t as [|y t].
  - destruct x as [x|]; simpl; [discriminate|].
    destruct Hv as [Hv|[v [Hv|[]]]]; [exact Hv | discriminate].
  - assert (E : forall (a : option A) l, l <> [] -> List.last (a :: l) None = List.last l None)
      by (intros a [|b l'] H; [congruence | reflexivity]).
    assert (Hne' : forall w, ffill_from w (y :: t) <> [])
      by (intros w H; apply (f_equal (@length _)) in H; rewrite length_ffill_from in H; discriminate).
    destruct x as [x|].
    + change (ffill_from last (Some x :: y :: t)) with (Some x :: ffill_from (Some x) (y :: t)).
      rewrite E by apply Hne'.
      apply IH; [discriminate | left; discriminate].
    + change (ffill_from last (None :: y :: t)) with (last :: ffill_from last (y :: t)).
      rewrite E by apply Hne'.
      apply IH; [discriminate|].
      destruct Hv as [Hv|[v [Hv|Hv]]]; [left; exact Hv | discriminate | right; exists v; exact Hv].
Qed.

Lemma nth_In_some {A} (l : list (option A)) i v : nth i l None = Some v -> In (Some v) l.
Proof.
  intro H; rewrite <- H; apply nth_In.
  destruct (Nat.lt_ge_cases i (length l)) as [Hi|Hi]; [exact Hi|].
  rewrite nth_overflow in H by exact Hi; discriminate.
Qed.

Lemma bfill_ffill_total {A} (l : list (option A)) :
  (exists v, In (Some v) l) -> Forall (fun o => o <> None) (bfill (ffill l)).
Proof.
  intros [v Hv]; unfold bfill, ffill.
  assert (Hl0 : l <> []) by (destruct l; [destruct Hv | discriminate]).
  assert (Hl := ffill_from_last_some None l Hl0 (or_intror (ex_intro _ v Hv))).
  set (m := ffill_from None l) in *.
  assert (Hne : m <> []).
  { intro H; apply (f_equal (@length _)) in H; unfold m in H; rewrite length_ffill_from in H.
    destruct l; [congruence | discriminate]. }
  assert (Hrev : rev m = List.last m None :: rev (removelast m)).
  { rewrite (app_removelast_last None Hne) at 1; rewrite rev_app_distr; reflexivity. }
  rewrite Hrev; apply Forall_rev.
  destruct (List.last m None) as [w|]; [|congruence].
  constructor; [discriminate | apply ffill_from_some_total].
Qed.

Lemma bfill_ffill_all_none {A} (l : list (option A)) :
  Forall (fun o => o = None) l -> bfill (ffill l) = l.
Proof.
  intro H; unfold bfill, ffill; rewrite (ffill_from_all_none l H).
  rewrite (ffill_from_all_none (rev l)) by (apply Forall_rev; exact H).
  apply rev_involutive.
Qed.

Lemma bfill_ffill_of_total {A} (l : list (option A)) :
  Forall (fun o => o <> None) l -> bfill (ffill l) = l.
Proof.
  intro H; unfold bfill, ffill; rewrite (ffill_from_all_some None l H).
  rewrite (ffill_from_all_some None (rev l)) by (apply Forall_rev; exact H).
  apply rev_involutive.
Qed.

Lemma some_or_all_none {A} (l : list (option A)) :
  (exists v, In (Some v) l) \/ Forall (fun o => o = None) l.
Proof.
  induction l as [|[x|] t IH]; [right; constructor | left; exists x; left; reflexivity|].
  destruct IH as [[v Hv]|H]; [left; exists v; right; exact Hv | right; constructor; auto].
Qed.

Lemma bfill_ffill_idem {A} (l : list (option A)) :
  bfill (ffill (bfill (ffill l))) = bfill (ffill l).
Proof.
  destruct (some_or_all_none l) as [H|H].
  - apply bfill_ffill_of_total, bfill_ffill_total, H.
  - rewrite (bfill_ffill_all_none l H); apply bfill_ffill_all_none, H.
Qed.

Lemma length_bfill_ffill {A} (l : list (option A)) : length (bfill (ffill l)) = length l.
Proof. unfold bfill, ffill; rewrite length_rev, length_ffill_from, length_rev, length_ffill_from; reflexivity. Qed.

Lemma bfill_ffill_keeps {A} (l : list (option A)) i v :
  nth i l None = Some v -> nth i (bfill (ffill l)) None = Some v.
Proof.
  intro H.
  assert (Hi : i < length l) by (destruct (Nat.lt_ge_cases i (length l)) as [|Hge];
                                 [assumption | rewrite nth_overflow in H by exact Hge; discriminate]).
  unfold bfill, ffill.
  set (m := ffill_from None l).
  assert (Hm : nth i m None = Some v) by (apply ffill_from_keeps, H).
  assert (Hlm : length m = length l) by apply length_ffill_from.
  rewrite rev_nth by (rewrite length_ffill_from, length_rev; lia).
  rewrite length_ffill_from, length_rev.
  apply ffill_from_keeps.
  rewrite rev_nth by (rewrite Hlm in *; lia).
  rewrite Hlm; replace (length l - S (length l - S i)) with i by lia; exact Hm.
Qed.

Lemma lookup_fill_meta {A} meta (cols : list (string * list (option A))) n :
  lookup_named (fill_meta meta cols) n =
  if existsb (String.eqb n) meta then option_map (fun c => bfill (ffill c)) (lookup_named cols n)
  else lookup_named cols n.
Proof.
  unfold fill_meta; revert cols; induction meta as [|c t IH]; intro cols; simpl; [reflexivity|].
  rewrite IH.
  assert (Hstep : lookup_named (match lookup_named cols c with
                                | Some col => set_col c (bfill (ffill col)) cols
                                | None => cols end) n =
                  if String.eqb c n then option_map (fun c => bfill (ffill c)) (lookup_named cols n)
                  else lookup_named cols n).
  { destruct (lookup_named cols c) as [col|] eqn:Ec.
    - rewrite lookup_named_set_col.
      destruct (String.eqb c n) eqn:E; [|reflexivity].
      apply String.eqb_eq in E; subst c; rewrite Ec; reflexivity.
    - destruct (String.eqb c n) eqn:E; [|reflexivity].
      apply String.eqb_eq in E; subst c; rewrite Ec; reflexivity. }
  rewrite Hstep, (String.eqb_sym n c).
  destruct (String.eqb c n), (existsb (String.eqb n) t); simpl; try reflexivity.
  destruct (lookup_named cols n); simpl; [rewrite bfill_ffill_idem|]; reflexivity.
Qed.

(** ** The loop over the variables *)










Lemma interpolate_station_df_ok_inv df vars meta g out :
  interpolate_station_df df vars meta g = Ok out ->
  meta <> [] /\
  fr_dates out = daily_calendar (fr_dates df) /\
  fr_text out = fill_meta meta (asfreq_cols (fr_dates df) (fr_dates out) (fr_text df)) /\
  fold_left (interp_step g) vars
    (@Ok (list (string * series)) (fill_meta meta (asfreq_cols (fr_dates df) (fr_dates out) (fr_num df))))
    = Ok (fr_num out).
Proof.
  unfold interpolate_station_df; cbv zeta.
  destruct meta as [|m t]; [discriminate|].
  destruct (fold_left (interp_step g) vars _) as [n|e] eqn:E; [|discriminate].
  intro H; injection H as <-; cbn [fr_dates fr_text fr_num].
  split; [discriminate|]; split; [reflexivity|]; split; [reflexivity | exact E].
Qed.

(** X4: interpolate_station_df: a meta column of the input is, in the output,
    its values on the daily calendar filled forward and then backward. A
    day that has a value keeps it. Once some day of the column has a value,
    no day is missing. A column with no value on any day is left as it
    is. *)
Theorem interpolate_station_df_meta df vars meta g out c col :
  interpolate_station_df df vars meta g = Ok out ->
  In c meta -> lookup_named (fr_text df) c = Some col ->
  let col' := asfreq (fr_dates df) col (fr_dates out) in
  exists colo,
    lookup_named (fr_text out) c = Some colo /\
    length colo = length (fr_dates out) /\
    (forall i v, nth i col' None = Some v -> nth i colo None = Some v) /\
    ((exists i v, nth i col' None = Some v) -> forall i, i < length colo -> nth i colo None <> None) /\
    ((forall i, nth i col' None = None) -> colo = col').
Proof.
  intros Hok Hc Hcol col'.
  destruct (interpolate_station_df_ok_inv df vars meta g out Hok) as [_ [_ [Htext _]]].
  exists (bfill (ffill col')).
  rewrite Htext, lookup_fill_meta, lookup_asfreq_cols, Hcol; cbn [option_map].
  assert (Hin : existsb (String.eqb c) meta = true)
    by (apply existsb_exists; exists c; split; [exact Hc | apply String.eqb_refl]).
  rewrite Hin; split; [reflexivity|]; split.
  { rewrite length_bfill_ffill; unfold col', asfreq; apply length_map. }
  split; [intros i v; apply bfill_ffill_keeps|]; split.
  - intros [i [v Hv]] j Hj.
    assert (Hall := bfill_ffill_total col' (ex_intro _ v (nth_In_some col' i v Hv))).
    rewrite Forall_forall in Hall; apply Hall, nth_In, Hj.
  - intro Hn; apply bfill_ffill_all_none.
    apply Forall_forall; intros o Ho.
    apply In_nth with (d := None) in Ho as [i [_ <-]]; apply Hn.
Qed.


Lemma interpolate_station_df_meta_witness :
  let df := {| fr_dates := [3; 1; 3; 6]%Z;
               fr_text := [("river_name"%string, [Some "A"%string; None; None; None])];
               fr_num := [("x"%string, [Some 1; None; Some 7; Some 4]%Q)] |} in
  let out := {| fr_dates := [1; 2; 3; 4; 5; 6]%Z;
                fr_text := [("river_name"%string, repeat (Some "A"%string) 6)];
                fr_num := [("x"%string, [None; None; Some 1; None; None; Some 4]%Q);
                           ("x_linear_interp"%string,
                            [None; None; Some 1; Some (6 # 3); Some (9 # 3); Some 4]%Q)] |} in
  interpolate_station_df df ["x"%string] ["river_name"%string] 2 = Ok out /\
  In "river_name"%string ["river_name"%string] /\
  lookup_named (fr_text df) "river_name" = Some [Some "A"%string; None; None; None] /\
  let col' := asfreq (fr_dates df) [Some "A"%string; None; None; None] (fr_dates out) in
  exists colo,
    lookup_named (fr_text out) "river_name" = Some colo /\
    length colo = length (fr_dates out) /\
    (forall i v, nth i col' None = Some v -> nth i colo None = Some v) /\
    ((exists i v, nth i col' None = Some v) -> forall i, i < length colo -> nth i colo None <> None) /\
    ((forall i, nth i col' None = None) -> colo = col').
Proof.
  intros df out.
  assert (H1 : interpolate_station_df df ["x"%string] ["river_name"%string] 2 = Ok out)
    by (vm_compute; reflexivity).
  assert (H2 : In "river_name"%string ["river_name"%string]) by (left; reflexivity).
  assert (H3 : lookup_named (fr_text df) "river_name" = Some [Some "A"%string; None; None; None])
    by (vm_compute; reflexivity).
  split; [exact H1|]; split; [exact H2|]; split; [exact H3|].
  exact (interpolate_station_df_meta df _ _ _ out _ _ H1 H2 H3).
Defined.


Lemma in_gam_train rows t :
  In t (gam_train rows) <->
  exists r q v, t = (r, (q, doy r), v) /\ In r rows /\ g_q r = Some q /\ g_var r = Some v.
Proof.
  unfold gam_train; rewrite in_flat_map; split.
  - intros [r [Hr Ht]].
    destruct (g_q r) as [q|] eqn:Eq, (g_var r) as [v|] eqn:Ev; try contradiction.
    destruct Ht as [<-|[]]; exists r, q, v; auto.
  - intros [r [q [v [-> [Hr [Eq Ev]]]]]]; exists r; split; [exact Hr|].
    rewrite Eq, Ev; left; reflexivity.
Qed.

Lemma in_gam_train_ord rows r q v :
  In r rows -> g_q r = Some q -> g_var r = Some v ->
  In (date_ord r) (map (fun t => date_ord (fst (fst t))) (gam_train rows)).
Proof.
  intros Hr Eq Ev; apply in_map_iff; exists (r, (q, doy r), v); split; [reflexivity|].
  apply in_gam_train; exists r, q, v; auto.
Qed.

(** X6: compute_gam: the function returns nothing exactly when pygam is
    missing, no row has both the variable and the discharge, or the fit
    raises. Otherwise it returns every input row in order, with its day of
    the year. The GAM value of a row is present exactly when the row has
    a discharge and its date lies between the dates of two training rows,
    that is between the first and the last training date. A present value
    is the model's prediction at (discharge, day of year), with negative
    predictions set to 0; it is never negative. *)
Theorem compute_gam_mask hp gs rows :
  let train := gam_train rows in
  (compute_gam hp gs rows = None <->
   hp = false \/ train = [] \/ gs (map (fun t => snd (fst t)) train) (map snd train) = None) /\
  (forall out, compute_gam hp gs rows = Some out ->
   map (fun x => fst (fst x)) out = rows /\
   forall r d v, In (r, d, v) out ->
     d = doy r /\
     (v <> None <->
        g_q r <> None /\
        exists t1 t2, In t1 rows /\ In t2 rows /\
          g_q t1 <> None /\ g_var t1 <> None /\ g_q t2 <> None /\ g_var t2 <> None /\
          (date_ord t1 <= date_ord r <= date_ord t2)%Z) /\
     (forall x, v = Some x -> 0 <= x)%Q /\
     (forall predict q, gs (map (fun t => snd (fst t)) train) (map snd train) = Some predict ->
        g_q r = Some q -> v <> None -> v = Some (clamp0 (predict (q, doy r))))).
Proof.
  intro train; split.
  - unfold compute_gam; fold train.
    destruct hp; simpl; [|split; [intros _; left; reflexivity | reflexivity]].
    destruct train as [|t0 tr] eqn:Et; [split; [intros _; right; left; reflexivity | reflexivity]|].
    rewrite <- Et.
    destruct (gs _ _) as [predict|] eqn:Eg; [|split; [intros _; right; right; reflexivity | reflexivity]].
    split; [discriminate|]; intros [H|[H|H]]; congruence.
  - intros out; unfold compute_gam; fold train.
    destruct hp; simpl; [|discriminate].
    destruct train as [|t0 tr] eqn:Et; [discriminate|]; rewrite <- Et.
    destruct (gs _ _) as [predict|] eqn:Eg; [|discriminate].
    set (L := map (fun t => date_ord (fst (fst t))) train).
    assert (HL : L <> []) by (unfold L; rewrite Et; discriminate).
    destruct (zmin_list_spec L HL) as [Hlo Hlo'], (zmax_list_spec L HL) as [Hhi Hhi'].
    intro H; injection H as <-.
    split; [rewrite map_map; simpl; apply map_id|].
    intros r d v Hin; apply in_map_iff in Hin as [r0 [Hr0 Hin]].
    injection Hr0 as <- <- <-.
    split; [reflexivity|].
    assert (Hord : forall x, In x L -> exists t, In t rows /\ g_q t <> None /\ g_var t <> None /\
                                                 date_ord t = x).
    { intros x Hx; unfold L in Hx; apply in_map_iff in Hx as [tt [<- Htt]].
      unfold train in Htt; apply in_gam_train in Htt as [t [q [w [-> [Ht [Eq Ew]]]]]].
      exists t; repeat split; [exact Ht | congruence | congruence]. }
    split; [|split].
    + split.
      * destruct (g_q r0) as [q|] eqn:Eq; [|intros []; reflexivity].
        destruct ((zmin_list L <=? date_ord r0)%Z && (date_ord r0 <=? zmax_list L)%Z) eqn:Eb;
          [|intros []; reflexivity].
        intros _; apply andb_true_iff in Eb as [E1 E2]; apply Z.leb_le in E1, E2.
        split; [discriminate|].
        destruct (Hord _ Hlo) as [t1 [Ht1 [Hq1 [Hv1 Ho1]]]].
        destruct (Hord _ Hhi) as [t2 [Ht2 [Hq2 [Hv2 Ho2]]]].
        exists t1, t2; repeat split; auto; lia.
      * intros [Hq [t1 [t2 [Ht1 [Ht2 [Hq1 [Hv1 [Hq2 [Hv2 Hb]]]]]]]]].
        destruct (g_q r0) as [q|] eqn:Eq; [|congruence].
        destruct (g_q t1) as [q1|] eqn:Eq1; [|congruence].
        destruct (g_var t1) as [v1|] eqn:Ev1; [|congruence].
        destruct (g_q t2) as [q2|] eqn:Eq2; [|congruence].
        destruct (g_var t2) as [v2|] eqn:Ev2; [|congruence].
        assert (E1 := Hlo' _ (in_gam_train_ord rows t1 q1 v1 Ht1 Eq1 Ev1)).
        assert (E2 := Hhi' _ (in_gam_train_ord rows t2 q2 v2 Ht2 Eq2 Ev2)).
        fold L in E1, E2.
        replace ((zmin_list L <=? date_ord r0)%Z && (date_ord r0 <=? zmax_list L)%Z) with true
          by (symmetry; apply andb_true_iff; split; apply Z.leb_le; lia).
        discriminate.
    + intros x Hx.
      destruct (g_q r0); [|discriminate].
      destruct (_ && _); [|discriminate].
      injection Hx as <-; apply clamp0_nonneg.
    + intros predict' q Eg' Eq Hv.
      assert (Ep : Some predict' = Some predict) by congruence; injection Ep as ->.
      rewrite Eq in Hv |- *.
      destruct (_ && _); [reflexivity | contradiction].
Qed.

Lemma dropnull_not_null (vals : list pyval) v t : dropnull vals = v :: t -> v <> PNone.
Proof.
  intro H; assert (Hin : In v (dropnull vals)) by (rewrite H; left; reflexivity).
  unfold dropnull in Hin; apply filter_In in Hin as [_ Hn].
  intros ->; discriminate.
Qed.

(** X10: station_id in [interpolate]: the station comes from the meta spec
    [station_name] when that gives a value. This is the first non-null
    value of the [from_col] column when [from_col] is set, even if [value]
    is set too; otherwise it is [value]. A [from_col] that is not a column
    raises [KeyError]. When the spec is missing or empty, or gives no
    value, the station falls back to the first non-null value of the
    station column, or ["UNKNOWN"] if there is none. If that column is
    absent as well, the id is the string ["None"]. *)
Theorem station_id_resolution repr wc m col :
  let fallback := match lookup_named wc col with
                  | Some vals => match dropnull vals with v :: _ => py_str repr v | [] => "UNKNOWN"%string end
                  | None => "None"%string
                  end in
  ((lookup_named m "station_name" = None \/ lookup_named m "station_name" = Some []) ->
   station_id repr wc m col = Ok fallback) /\
  (forall spec c vals, lookup_named m "station_name" = Some spec -> spec <> [] ->
   lookup_named spec "from_col" = Some (PStr c) -> lookup_named wc c = Some vals ->
   station_id repr wc m col =
     Ok (match dropnull vals with v :: _ => py_str repr v | [] => fallback end)) /\
  (forall spec x, lookup_named m "station_name" = Some spec -> spec <> [] ->
   lookup_named spec "from_col" = Some x ->
   (forall c, x = PStr c -> lookup_named wc c = None) ->
   exists e, station_id repr wc m col = Err e) /\
  (forall spec, lookup_named m "station_name" = Some spec -> spec <> [] ->
   lookup_named spec "from_col" = None ->
   station_id repr wc m col =
     Ok (match lookup_named spec "value" with
         | Some PNone | None => fallback
         | Some v => py_str repr v
         end)).
Proof.
  intro fallback.
  assert (Hfb : read_meta_value wc m "station_name" = Ok PNone ->
                          station_id repr wc m col = Ok fallback).
  { intro H; unfold station_id, station_name_val; rewrite H; unfold fallback.
    destruct (lookup_named wc col) as [vals|]; [|reflexivity].
    destruct (dropnull vals); reflexivity. }
  assert (Hval : forall v, read_meta_value wc m "station_name" = Ok v -> v <> PNone ->
                           station_id repr wc m col = Ok (py_str repr v)).
  { intros v H Hv; unfold station_id, station_name_val; rewrite H.
    destruct v; [contradiction | reflexivity | reflexivity]. }
  split; [|split; [|split]].
  - intros [H|H]; apply Hfb; unfold read_meta_value; rewrite H; reflexivity.
  - intros spec c vals Hs Hne Hc Hv.
    assert (Hr : read_meta_value wc m "station_name"
                 = Ok (match dropnull vals with v :: _ => v | [] => PNone end)).
    { unfold read_meta_value; rewrite Hs; destruct spec as [|kv spec]; [contradiction|].
      rewrite Hc, Hv; reflexivity. }
    destruct (dropnull vals) as [|v t] eqn:Ed.
    + apply (Hfb Hr).
    + apply (Hval v Hr), (dropnull_not_null vals v t Ed).
  - intros spec x Hs Hne Hx Hc.
    assert (Hr : exists e, read_meta_value wc m "station_name" = Err e).
    { unfold read_meta_value; rewrite Hs; destruct spec as [|kv spec]; [contradiction|].
      rewrite Hx; destruct x as [|c|q]; try (eexists; reflexivity).
      rewrite (Hc c eq_refl); eexists; reflexivity. }
    destruct Hr as [e Hr]; exists e; unfold station_id, station_name_val; rewrite Hr; reflexivity.
  - intros spec Hs Hne Hx.
    assert (Hr : read_meta_value wc m "station_name"
                 = Ok (match lookup_named spec "value" with Some v => v | None => PNone end)).
    { unfold read_meta_value; rewrite Hs; destruct spec as [|kv spec]; [contradiction|].
      rewrite Hx; destruct (lookup_named (kv :: spec) "value"); reflexivity. }
    destruct (lookup_named spec "value") as [[|s|q]|].
    + apply (Hfb Hr).
    + apply (Hval _ Hr); discriminate.
    + apply (Hval _ Hr); discriminate.
    + apply (Hfb Hr).
Qed.
